(** * Shipyard: naming, name validation and the loggable-resource listing

    A shallow embedding of

    - [utils.ValidateName], [utils.ReplaceNonURIChars] and [utils.FQDN]
      (package [utils]),
    - [cmd.getLoggable] (file [cmd/log.go]),
    - the resource records of package [config] that these functions read,

    followed by the properties of the design document that concern them.

    Go strings are byte sequences; they are embedded as [string], whose
    characters are the 256 values of [ascii].  The two regular expressions
    of the code only name ASCII characters, and every byte of a multi-byte
    or ill-formed UTF-8 sequence is at least 128, so a rune lies outside an
    ASCII class exactly when each of its bytes does: matching byte by byte
    gives what Go's rune-wise matcher gives. *)

From Stdlib Require Import Bool Arith ZArith NArith List Lia.
From Stdlib Require Import Strings.Ascii Strings.String Numbers.DecimalString.
Import ListNotations.

Open Scope string_scope.

(** ** Go's [error] values, and panics *)

(** An [error] built by [fmt.Errorf] is identified by its message. *)
Definition error := string.

(** A computation that returns a value or panics. *)
Inductive Res (A : Type) : Type :=
| Ret (a : A)
| Panic (e : error).

Arguments Ret {A} a.
Arguments Panic {A} e.

Definition bind {A B : Type} (m : Res A) (k : A -> Res B) : Res B :=
  match m with
  | Ret a => k a
  | Panic e => Panic e
  end.

Notation "x <- m ;; k" := (bind m (fun x => k))
  (at level 61, m at next level, right associativity).

(** Go's built-in [append(s, x)] of one element to a slice. *)
Definition go_append {A : Type} (s : list A) (x : A) : list A := (s ++ [x])%list.

(** ** Package [regexp], as far as the two patterns of [utils] need it *)

Module regexp.

(** [inRange lo hi c]: the class item [lo-hi]. *)
Definition inRange (lo hi c : ascii) : bool :=
  (N_of_ascii lo <=? N_of_ascii c)%N && (N_of_ascii c <=? N_of_ascii hi)%N.

(** All characters of [s] satisfy [p]. *)
Fixpoint allChars (p : ascii -> bool) (s : string) : bool :=
  match s with
  | EmptyString => true
  | String c s' => p c && allChars p s'
  end.

(** [MatchString] for a pattern [^C+$], [C] a character class: without
    the [m] flag [^] and [$] only match at the two ends of the text, so
    the text matches when it is not empty and lies in [C] throughout. *)
Definition MatchString_anchored_plus (C : ascii -> bool) (s : string) : bool :=
  match s with
  | EmptyString => false
  | String _ _ => allChars C s
  end.

(** [ReplaceAllString] for a pattern [C+] and a replacement without
    [$]: matches are found left to right, each as long as possible and
    none overlapping, so every maximal run of characters of [C] is one
    match.  [inrun] tells that the previous character belonged to the
    match being consumed. *)
Fixpoint replaceRuns (C : ascii -> bool) (repl : string) (inrun : bool)
         (s : string) : string :=
  match s with
  | EmptyString => EmptyString
  | String c s' =>
      if C c then
        if inrun then replaceRuns C repl true s'
        else repl ++ replaceRuns C repl true s'
      else String c (replaceRuns C repl false s')
  end.

Definition ReplaceAllString_plus (C : ascii -> bool) (s repl : string) : string :=
  replaceRuns C repl false s.

End regexp.

(** ** Package [strings], as far as [utils] and [cmd] use it *)

Module strings.

(** A text that is not empty, [String head tail]: what [ReplaceAll] and
    [Split] are given to look for.  (For the empty text Go steps over UTF-8
    sequences; no call of the code has it.) *)
Record NonEmpty : Set := nonEmpty { head : ascii; tail : string }.

Definition text (p : NonEmpty) : string := String (head p) (tail p).

(** [func HasPrefix(s, prefix string) bool] *)
Fixpoint HasPrefix (s prefix : string) {struct prefix} : bool :=
  match prefix with
  | EmptyString => true
  | String p prefix' =>
      match s with
      | EmptyString => false
      | String c s' => Ascii.eqb c p && HasPrefix s' prefix'
      end
  end.

(** [func Contains(s, substr string) bool] *)
Fixpoint Contains (s substr : string) : bool :=
  HasPrefix s substr
  || match s with
     | EmptyString => false
     | String _ s' => Contains s' substr
     end.

(** [func HasSuffix(s, suffix string) bool]:
    [len(s) >= len(suffix) && s[len(s)-len(suffix):] == suffix] *)
Definition HasSuffix (s suffix : string) : bool :=
  (String.length suffix <=? String.length s)%nat
  && (substring (String.length s - String.length suffix) (String.length suffix) s
      =? suffix).

(** [func TrimSuffix(s, suffix string) string] *)
Definition TrimSuffix (s suffix : string) : string :=
  if HasSuffix s suffix then
    (* s[:len(s)-len(suffix)] *)
    substring 0 (String.length s - String.length suffix) s
  else s.

(** The occurrences of [old] that do not overlap, found from the left, are
    replaced by [new]; [skip] counts the characters of the occurrence just
    found that are still to be passed over. *)
Fixpoint replaceFrom (old new : string) (skip : nat) (s : string) : string :=
  match s with
  | EmptyString => EmptyString
  | String c s' =>
      match skip with
      | S k => replaceFrom old new k s'
      | O =>
          if HasPrefix (String c s') old then
            new ++ replaceFrom old new (String.length old - 1) s'
          else String c (replaceFrom old new 0 s')
      end
  end.

(** [func ReplaceAll(s, old, new string) string] *)
Definition ReplaceAll (s : string) (old : NonEmpty) (new : string) : string :=
  replaceFrom (text old) new 0 s.

(** The parts between the occurrences of [sep] that do not overlap, found
    from the left; [cur] is the part being read. *)
Fixpoint splitFrom (sep : string) (skip : nat) (cur : string) (s : string)
  : list string :=
  match s with
  | EmptyString => [cur]
  | String c s' =>
      match skip with
      | S k => splitFrom sep k cur s'
      | O =>
          if HasPrefix (String c s') sep then
            cur :: splitFrom sep (String.length sep - 1) EmptyString s'
          else splitFrom sep 0 (cur ++ String c EmptyString) s'
      end
  end.

(** [func Split(s, sep string) []string] *)
Definition Split (s : string) (sep : NonEmpty) : list string :=
  splitFrom (text sep) 0 EmptyString s.

(** [func Join(elems []string, sep string) string] *)
Fixpoint Join (elems : list string) (sep : string) : string :=
  match elems with
  | [] => EmptyString
  | [a] => a
  | a :: rest => a ++ sep ++ Join rest sep
  end.

End strings.

(** ** Package [utils] *)

Module utils.

Definition NameExceedsMaxLengthError : error :=
  "Name exceeds the max length of 128 characters".
Definition NameContainsInvalidCharactersError : error :=
  "Name contains invalid characters characters must be either a-z, A-Z, 0-9, -, _".

(** The class [[a-zA-Z0-9\-_]] of [ValidateName]. *)
Definition isNameChar (c : ascii) : bool :=
  regexp.inRange "a" "z" c || regexp.inRange "A" "Z" c
  || regexp.inRange "0" "9" c || Ascii.eqb c "-" || Ascii.eqb c "_".

(** The class [[a-zA-Z0-9\-\.]], whose complement
    [ReplaceNonURIChars] replaces. *)
Definition isURIChar (c : ascii) : bool :=
  regexp.inRange "a" "z" c || regexp.inRange "A" "Z" c
  || regexp.inRange "0" "9" c || Ascii.eqb c "-" || Ascii.eqb c ".".

(** [func ValidateName(name string) (bool, error)] *)
Definition ValidateName (name : string) : bool * option error :=
  (* check the length *)
  if (128 <? String.length name)%nat then
    (false, Some NameExceedsMaxLengthError)
  else
    (* r := regexp.MustCompile(`^[a-zA-Z0-9\-_]+$`) *)
    let ok := regexp.MatchString_anchored_plus isNameChar name in
    if negb ok then (false, Some NameContainsInvalidCharactersError)
    else (true, None).

(** [func ReplaceNonURIChars(s string) (string, error)].  The pattern
    [[^a-zA-Z0-9\-\.]+] is a constant that compiles, so [regexp.Compile]
    hands back no error and the first branch of the source is never
    taken. *)
Definition ReplaceNonURIChars (s : string) : string * option error :=
  (regexp.ReplaceAllString_plus (fun c => negb (isURIChar c)) s "-", None).

(** [func FQDN(name, typeName string) string] *)
Definition FQDN (name typeName : string) : Res string :=
  (* ensure that the name is valid for URI schema *)
  match ReplaceNonURIChars name with
  | (_, Some err) => Panic err
  | (cleanName, None) =>
      (* fmt.Sprintf("%s.%s.shipyard.run", cleanName, typeName) *)
      Ret (cleanName ++ "." ++ typeName ++ ".shipyard.run")
  end.

Definition InvalidBlueprintURIError : error := "Inavlid blueprint URI".

(** [func FQDNVolumeName(name string) string] *)
Definition FQDNVolumeName (name : string) : Res string :=
  (* ensure that the name is valid for URI schema *)
  match ReplaceNonURIChars name with
  | (_, Some err) => Panic err
  | (cleanName, None) =>
      (* fmt.Sprintf("%s.volume.shipyard.run", cleanName) *)
      Ret (cleanName ++ ".volume.shipyard.run")
  end.

(** [func sanitizeBlueprintFolder(blueprint string) string] *)
Definition sanitizeBlueprintFolder (blueprint : string) : string :=
  let blueprint := strings.ReplaceAll blueprint (strings.nonEmpty "/" "/") "/" in
  let blueprint := strings.ReplaceAll blueprint (strings.nonEmpty "?" "") "/" in
  let blueprint := strings.ReplaceAll blueprint (strings.nonEmpty "&" "") "/" in
  let blueprint := strings.ReplaceAll blueprint (strings.nonEmpty "=" "") "/" in
  blueprint.

(** [func GetBlueprintFolder(blueprint string) (string, error)].  A slice
    that is [nil] has length 0, so the test [parts == nil] is part of the
    test of the length. *)
Definition GetBlueprintFolder (blueprint : string) : string * option error :=
  (* get the folder for the blueprint *)
  let parts := strings.Split blueprint (strings.nonEmpty "/" "/") in
  if negb (List.length parts =? 2)%nat then
    ("", Some InvalidBlueprintURIError)
  else
    (sanitizeBlueprintFolder (nth 1 parts ""), None).


End utils.

(** ** Package [config]: the resource records *)

Module config.

(** [type ResourceType string] *)
Definition ResourceType := string.

(** Modelled from the spec: the [ResourceType] constants, declared in a
    file of package [config] that is not among the sources.  Their values
    are the type names of the design's enumeration, which are also the
    names the feature files and [FindResource] keys use
    ([container_ingress], [exec_local.setup_vault]). *)
Definition TypeNetwork : ResourceType := "network".
Definition TypeContainer : ResourceType := "container".
Definition TypeSidecar : ResourceType := "sidecar".
Definition TypeContainerIngress : ResourceType := "container_ingress".
Definition TypeK8sCluster : ResourceType := "k8s_cluster".
Definition TypeK8sIngress : ResourceType := "k8s_ingress".
Definition TypeNomadCluster : ResourceType := "nomad_cluster".
Definition TypeNomadIngress : ResourceType := "nomad_ingress".
Definition TypeExecLocal : ResourceType := "exec_local".
Definition TypeImageCache : ResourceType := "image_cache".


(** Modelled from the spec: the status enumeration of a resource. *)
Inductive Status : Set :=
| PendingCreation
| Created
| Disabled
| Failed
| PendingDestroy
| Destroyed.

(** What [r.Info()] returns; only the fields that the code under study
    reads are kept. *)
Record ResourceInfo : Set := {
  Info_Name : string;
  Info_Type : ResourceType;
  Info_Status : Status;
  Info_Disabled : bool
}.

(** [*config.NomadCluster]: its [ClientNodes] is a Go [int]. *)
Record NomadCluster : Set := {
  NomadCluster_Info : ResourceInfo;
  ClientNodes : Z
}.

(** A value of the interface [config.Resource]: a [*NomadCluster], or a
    value of one of the other concrete resource types, of which only
    [Info()] is used. *)
Inductive Resource : Set :=
| IsNomadCluster (nomad : NomadCluster)
| IsOther (info : ResourceInfo).

Definition Info (r : Resource) : ResourceInfo :=
  match r with
  | IsNomadCluster nomad => NomadCluster_Info nomad
  | IsOther info => info
  end.

(** The type assertion of [r] to a pointer to [config.NomadCluster], which panics on a
    value of another concrete type. *)
Definition assertNomadCluster (r : Resource) : Res NomadCluster :=
  match r with
  | IsNomadCluster nomad => Ret nomad
  | IsOther _ =>
      Panic "interface conversion: config.Resource is not *config.NomadCluster"
  end.

Record Config : Set := { Resources : list Resource }.

End config.

(** ** Package [color] (github.com/fatih/color): the foreground colours *)

Module color.

Inductive Attribute : Set :=
| FgBlack
| FgRed
| FgGreen
| FgYellow
| FgBlue
| FgMagenta
| FgCyan
| FgWhite.

End color.

(** ** Package [encoding/binary] *)

Module binary.

(** [func (bigEndian) Uint32(b []byte) uint32]:
    [uint32(b[3]) | uint32(b[2])<<8 | uint32(b[1])<<16 | uint32(b[0])<<24],
    after the bounds check [_ = b[3]].  A byte shifted by at most 24 bits
    is below [2^32], so nothing wraps. *)
Definition BigEndian_Uint32 (b : list ascii) : Res Z :=
  match b with
  | b0 :: b1 :: b2 :: b3 :: _ =>
      let u (x : ascii) := Z.of_N (N_of_ascii x) in
      Ret (Z.lor (Z.lor (Z.lor (u b3) (Z.shiftl (u b2) 8)) (Z.shiftl (u b1) 16))
                 (Z.shiftl (u b0) 24))
  | _ => Panic "runtime error: index out of range [3]"
  end.

End binary.

(** ** Package [io]: readers *)

Module io.

Definition EOF : error := "EOF".

(** A value of the interface [io.Reader] with its state in [S]: [Read],
    asked for at most [n] bytes, gives the bytes read, the error if there is
    one, and the state of the reader afterwards. *)
Definition Reader (S : Type) : Type := S -> nat -> list ascii * option error * S.

(** What a call [Read(p)] leaves in the slice [p]: the bytes read, as many
    as [p] holds, and behind them the bytes that [p] had. *)
Definition copyInto (p data : list ascii) : list ascii :=
  (firstn (List.length p) data ++ skipn (List.length data) p)%list.

(** [bytes.Reader], the reader of a byte slice held in memory: at the end
    it gives [EOF], before the end as many of the bytes left as are asked
    for. *)
Definition bytesReader : Reader (list ascii) :=
  fun s n =>
    match s with
    | [] => ([], Some EOF, [])
    | _ :: _ => (firstn n s, None, skipn n s)
    end.

End io.

(** ** Package [cobra] (github.com/spf13/cobra): the directives of a completion *)

Module cobra.

Inductive ShellCompDirective : Set :=
| ShellCompDirectiveError
| ShellCompDirectiveNoSpace
| ShellCompDirectiveNoFileComp
| ShellCompDirectiveFilterFileExt
| ShellCompDirectiveFilterDirs
| ShellCompDirectiveDefault.

End cobra.

(** ** Package [cmd]: [getLoggable] of [cmd/log.go] *)

Module cmd.
Import config.

(** [%d] of a Go [int]. *)
Definition itoa (n : Z) : string := NilZero.string_of_int (Z.to_int n).

(** The loop [for n := 0; n < nomad.ClientNodes; n++] that adds the
    client nodes; [iters] is the number of iterations still to run,
    [ClientNodes - n] when that is positive and none otherwise.  [n + 1]
    never exceeds [ClientNodes], so it does not overflow. *)
Fixpoint clientLoop (iters : nat) (n : Z) (name : string) (type : ResourceType)
         (loggable : list string) : Res (list string) :=
  match iters with
  | O => Ret loggable
  | S iters' =>
      fqdn <- utils.FQDN name type ;;
      (* fmt.Sprintf("%d.%s.%s", n+1, "client", fqdn) *)
      clientLoop iters' (n + 1) name type
        (go_append loggable (itoa (n + 1) ++ "." ++ "client" ++ "." ++ fqdn))
  end.

(** [loggable = append(loggable, utils.FQDN(r.Info().Name, string(r.Info().Type)))] *)
Definition appendFQDN (loggable : list string) (r : Resource) : Res (list string) :=
  fqdn <- utils.FQDN (Info_Name (Info r)) (Info_Type (Info r)) ;;
  Ret (go_append loggable fqdn).

(** [loggable = append(loggable, fmt.Sprintf("%s.%s", "server", utils.FQDN(...)))] *)
Definition appendServer (loggable : list string) (r : Resource) : Res (list string) :=
  fqdn <- utils.FQDN (Info_Name (Info r)) (Info_Type (Info r)) ;;
  Ret (go_append loggable ("server" ++ "." ++ fqdn)).

(** The body of [for _, r := range resources]: the [switch] on
    [r.Info().Type], whose cases are tried in the order of the source and
    which has no [default]. *)
Definition loggableStep (loggable : list string) (r : Resource) : Res (list string) :=
  let type := Info_Type (Info r) in
  if type =? TypeContainer then
    if negb (Info_Disabled (Info r)) then appendFQDN loggable r
    else Ret loggable
  else if type =? TypeK8sCluster then
    if negb (Info_Disabled (Info r)) then appendServer loggable r
    else Ret loggable
  else if type =? TypeNomadCluster then
    if negb (Info_Disabled (Info r)) then
      loggable <- appendServer loggable r ;;
      (* add the client nodes *)
      nomad <- assertNomadCluster r ;;
      clientLoop (Z.to_nat (ClientNodes nomad - 0)) 0
        (Info_Name (Info r)) (Info_Type (Info r)) loggable
    else Ret loggable
  else if type =? TypeSidecar then
    if negb (Info_Disabled (Info r)) then appendFQDN loggable r
    else Ret loggable
  else if type =? TypeK8sIngress then
    if negb (Info_Disabled (Info r)) then appendFQDN loggable r
    else Ret loggable
  else if type =? TypeNomadIngress then
    if negb (Info_Disabled (Info r)) then appendFQDN loggable r
    else Ret loggable
  else if type =? TypeContainerIngress then
    if negb (Info_Disabled (Info r)) then appendFQDN loggable r
    else Ret loggable
  else if type =? TypeImageCache then
    appendFQDN loggable r
  else Ret loggable.

(** [for _, r := range resources { ... }] *)
Fixpoint loggableLoop (resources : list Resource) (loggable : list string)
  : Res (list string) :=
  match resources with
  | [] => Ret loggable
  | r :: rest =>
      loggable' <- loggableStep loggable r ;;
      loggableLoop rest loggable'
  end.

(** [func getLoggable() ([]string, error)].  [state] is what
    [c.FromJSON(utils.StatePath())] leaves: the configuration read from
    the state file, and the error of the reading if there was one. *)
Definition getLoggable (state : Config * option error)
  : Res (list string * option error) :=
  let (c, err) := state in
  match err with
  | Some e =>
      Ret ([], Some ("unable to load state file, check you have running resources: " ++ e))
  | None =>
      let resources := Resources c in
      loggable <- loggableLoop resources [] ;;
      Ret (loggable, None)
  end.

(** [func getResources(cmd *cobra.Command, args []string, complete string)
    ([]string, cobra.ShellCompDirective)]; it uses none of its three
    arguments.  [err.Error()] is the message of the error. *)
Definition getResources (state : Config * option error)
  : Res (list string * cobra.ShellCompDirective) :=
  r <- getLoggable state ;;
  let (loggable, err) := r in
  match err with
  | Some e => Ret ([e], cobra.ShellCompDirectiveNoFileComp)
  | None => Ret (loggable, cobra.ShellCompDirectiveNoFileComp)
  end.

(** [var termColors = []color.Attribute{...}] *)
Definition termColors : list color.Attribute :=
  [color.FgRed; color.FgGreen; color.FgYellow; color.FgBlue;
   color.FgMagenta; color.FgCyan; color.FgWhite].

(** [func getRandomColor() color.Attribute]: [Intn] is [rand.Intn], which
    gives a number from 0 and below its argument; indexing the slice out of
    its range panics. *)
Definition getRandomColor (Intn : Z -> Z) : Res color.Attribute :=
  let i := Intn (Z.of_nat (List.length termColors) - 1)%Z in
  if (0 <=? i)%Z && (i <? Z.of_nat (List.length termColors))%Z then
    Ret (nth (Z.to_nat i) termColors color.FgRed)
  else Panic "runtime error: index out of range".

(** The two writers that [writeLogOutput] is given. *)
Inductive Writer : Set := Stdout | Stderr.

(** What [writeLogOutput] does that can be seen: a text printed in a colour
    on a writer, or an error logged with the name and the error. *)
Inductive Event : Set :=
| Fprintf (w : Writer) (c : color.Attribute) (text : string)
| LogError (msg : string) (name : string) (err : error).

(** Where the function is after the rounds looked at. *)
Inductive Outcome : Set :=
| Running
| Returned
| Panicked (e : error).

(** The loop [for { ... }] of [writeLogOutput], for [rounds] rounds: [hdr]
    is the slice made once before the loop, [name] the name as the rounds
    before left it. *)
Fixpoint writeLogOutput_loop {S : Type} (Read : io.Reader S) (rounds : nat)
         (rc : S) (hdr : list ascii) (name : string) (c : color.Attribute)
  : list Event * Outcome :=
  match rounds with
  | O => ([], Running)
  | Datatypes.S rounds' =>
      (* _, err := rc.Read(hdr) *)
      let '(data, err, rc) := Read rc (List.length hdr) in
      let hdr := io.copyInto hdr data in
      match err with
      | Some e => ([LogError "Unable to read from log stream" name e], Returned)
      | None =>
          match hdr with
          | [] => ([], Panicked "runtime error: index out of range [0]")
          | hdr0 :: _ =>
              let w := if (N_of_ascii hdr0 =? 1)%N then Stdout else Stderr in
              (* count := binary.BigEndian.Uint32(hdr[4:]) *)
              match binary.BigEndian_Uint32 (skipn 4 hdr) with
              | Panic e => ([], Panicked e)
              | Ret count =>
                  let dat := repeat zero (Z.to_nat count) in
                  (* _, err = rc.Read(dat) *)
                  let '(data, _, rc) := Read rc (List.length dat) in
                  let dat := io.copyInto dat data in
                  let name := strings.TrimSuffix name ".shipyard.run" in
                  let '(events, outcome) :=
                    writeLogOutput_loop Read rounds' rc hdr name c in
                  (* colorWriter.Fprintf(w, "[%s]   %s", name, string(dat)) *)
                  (Fprintf w c ("[" ++ name ++ "]   " ++ string_of_list_ascii dat)
                   :: events, outcome)
              end
          end
      end
  end.

(** [func writeLogOutput(rc io.ReadCloser, stdout, stderr io.Writer,
    name string, c color.Attribute, log hclog.Logger)], for [rounds] rounds
    of its loop. *)
Definition writeLogOutput {S : Type} (Read : io.Reader S) (rounds : nat)
           (rc : S) (name : string) (c : color.Attribute)
  : list Event * Outcome :=
  (* hdr := make([]byte, 8) *)
  let hdr := repeat zero 8 in
  writeLogOutput_loop Read rounds rc hdr name c.

End cmd.

(** ** The two character classes, as the design document writes them *)

Import config.

(** The characters of [[A-Za-z0-9_-]], the class of resource names. *)
Definition nameAlphabet : list ascii :=
  list_ascii_of_string
    "ABCDEFGHIJKLMNOPQRSTUVWXYZabcdefghijklmnopqrstuvwxyz0123456789_-".

(** The characters of [[A-Za-z0-9.-]], the class of DNS-style handles. *)
Definition handleAlphabet : list ascii :=
  list_ascii_of_string
    "ABCDEFGHIJKLMNOPQRSTUVWXYZabcdefghijklmnopqrstuvwxyz0123456789.-".

(** Every character of [s] has property [P]. *)
Definition AllIn (P : ascii -> Prop) (s : string) : Prop :=
  Forall P (list_ascii_of_string s).

(** [s] matches [[A-Za-z0-9_-]+]. *)
Definition MatchesNamePattern (s : string) : Prop :=
  s <> "" /\ AllIn (fun c => In c nameAlphabet) s.

(** [s] only has characters of [[A-Za-z0-9.-]]. *)
Definition IsDNSStyle (s : string) : Prop :=
  AllIn (fun c => In c handleAlphabet) s.

(** The name that [FQDN] puts into the handle. *)
Definition cleanName (name : string) : string :=
  fst (utils.ReplaceNonURIChars name).

(** The complement of [[a-zA-Z0-9\-\.]], the class of the pattern of
    [ReplaceNonURIChars]. *)
Definition nonURI (c : ascii) : bool := negb (utils.isURIChar c).

Definition notDot (c : ascii) : bool := negb (Ascii.eqb c ".").
Definition notUnderscore (c : ascii) : bool := negb (Ascii.eqb c "_").


(** The longest prefix of [s] in the class [C], and what follows it. *)
Fixpoint takeRun (C : ascii -> bool) (s : string) : string :=
  match s with
  | EmptyString => EmptyString
  | String c s' => if C c then String c (takeRun C s') else EmptyString
  end.

Fixpoint dropRun (C : ascii -> bool) (s : string) : string :=
  match s with
  | EmptyString => EmptyString
  | String c s' => if C c then dropRun C s' else s
  end.

(** The types for which [getLoggable] has a [case]. *)
Definition loggableTypes : list ResourceType :=
  [TypeContainer; TypeSidecar; TypeContainerIngress; TypeK8sCluster;
   TypeK8sIngress; TypeNomadCluster; TypeNomadIngress; TypeImageCache].

(** The handle of a resource, as a text. *)
Definition fqdnOf (r : Resource) : string :=
  cleanName (Info_Name (Info r)) ++ "." ++ Info_Type (Info r) ++ ".shipyard.run".

(** The handles of the client nodes [n + 1], ..., [n + k]. *)
Definition clientHandles (n : Z) (k : nat) (fqdn : string) : list string :=
  map (fun i => cmd.itoa (n + Z.of_nat i) ++ ".client." ++ fqdn) (seq 1 k).

(** *** The design document's reading of the sanitization *)

(** The sanitization as the design document words it: any character
    outside [[A-Za-z0-9.-]] is replaced by ['-']. *)
Fixpoint spec_sanitize (name : string) : string :=
  match name with
  | EmptyString => EmptyString
  | String c rest =>
      String (if existsb (Ascii.eqb c) handleAlphabet then c else "-"%char)
             (spec_sanitize rest)
  end.

(** [Address(name, type)] as the design document words it. *)
Definition spec_Address (name type : string) : string :=
  spec_sanitize name ++ "." ++ type ++ ".shipyard.run".

(** [rest] is empty or begins with a character of [[A-Za-z0-9.-]]. *)
Definition runEndsAt (rest : string) : Prop :=
  match rest with
  | EmptyString => True
  | String c _ => In c handleAlphabet
  end.

(** [RunsReplaced s out]: [out] is [s] with every maximal run of
    characters outside [[A-Za-z0-9.-]] replaced by a single ['-'], and
    every other character kept. *)
Inductive RunsReplaced : string -> string -> Prop :=
| RR_nil : RunsReplaced "" ""
| RR_keep c s out :
    In c handleAlphabet ->
    RunsReplaced s out ->
    RunsReplaced (String c s) (String c out)
| RR_run run rest out :
    run <> "" ->
    AllIn (fun c => ~ In c handleAlphabet) run ->
    runEndsAt rest ->
    RunsReplaced rest out ->
    RunsReplaced (run ++ rest) (String "-" out).

(** *** What the further properties are stated with *)

(** Every [c] in [s] replaced by [new]. *)
Fixpoint replaceChar (c : ascii) (new : string) (s : string) : string :=
  match s with
  | EmptyString => EmptyString
  | String d s' =>
      if Ascii.eqb d c then new ++ replaceChar c new s'
      else String d (replaceChar c new s')
  end.

(** [c] is none of the three characters that [sanitizeBlueprintFolder]
    replaces. *)
Definition notSpecial (c : ascii) : Prop :=
  c <> "?"%char /\ c <> "&"%char /\ c <> "="%char.

(** The type assertion of the [case] of [TypeNomadCluster] holds of [r]. *)
Definition AssertionHolds (r : Resource) : Prop :=
  Info_Type (Info r) = TypeNomadCluster ->
  Info_Disabled (Info r) = false ->
  exists nomad, r = IsNomadCluster nomad.

(** What a handle of the listing has before the handle of its resource. *)
Definition HandlePrefix (prefix : string) : Prop :=
  prefix = "" \/ prefix = "server."
  \/ exists i : Z, (1 <= i)%Z /\ prefix = cmd.itoa i ++ ".client.".

(** A frame of the stream of logs: the number of the stream it is of (1 is
    the standard output) and its bytes. *)
Record Frame : Set := { stream : ascii; payload : list ascii }.

Definition byteOf (z : Z) : ascii := ascii_of_N (Z.to_N z).

(** The four bytes of a number below [2^32], the highest first. *)
Definition be32 (n : Z) : list ascii :=
  [byteOf (n / 2 ^ 24); byteOf ((n / 2 ^ 16) mod 256);
   byteOf ((n / 2 ^ 8) mod 256); byteOf (n mod 256)]%Z.

(** A frame as the stream has it: eight bytes of header, which are the
    number of the stream, three bytes of zero and the length of the
    payload, and then the payload. *)
Definition encodeFrame (f : Frame) : list ascii :=
  (stream f :: zero :: zero :: zero :: be32 (Z.of_nat (List.length (payload f))))
    ++ payload f.

(** The writer that the frames of a stream go to. *)
Definition writerOf (f : Frame) : cmd.Writer :=
  if (N_of_ascii (stream f) =? 1)%N then cmd.Stdout else cmd.Stderr.

(** [ev] is a text printed in the colour [c] that begins with a bracket. *)
Definition isFprintf (c : color.Attribute) (ev : cmd.Event) : Prop :=
  match ev with
  | cmd.Fprintf _ c' text => c' = c /\ strings.HasPrefix text "[" = true
  | cmd.LogError _ _ _ => False
  end.

(** What is printed for a frame under the label [label]. *)
Definition printOf (label : string) (c : color.Attribute) (f : Frame) : cmd.Event :=
  cmd.Fprintf (writerOf f) c
    ("[" ++ label ++ "]   " ++ string_of_list_ascii (payload f)).

(** ** Proof tools *)

(** A fact about one character is decided on each of the 256 characters. *)
Ltac by_cases_on_char c :=
  destruct c as [[] [] [] [] [] [] [] []]; vm_compute; reflexivity.

(** Decides the tests of the [switch], one after the other. *)
Ltac switch_cases :=
  repeat match goal with
         | |- context [String.eqb ?a ?b] =>
             destruct (String.eqb_spec a b); cbv beta iota
         end.

(** ** Characters *)

Lemma isNameChar_implb (c : ascii) :
  implb (utils.isNameChar c)
        ((utils.isURIChar c || Ascii.eqb c "_") && negb (Ascii.eqb c ".")) = true.
Proof. by_cases_on_char c. Qed.

Lemma isURIChar_implb (c : ascii) :
  implb (utils.isURIChar c) (utils.isNameChar c || Ascii.eqb c ".") = true.
Proof. by_cases_on_char c. Qed.

Lemma isNameChar_existsb (c : ascii) :
  utils.isNameChar c = existsb (Ascii.eqb c) nameAlphabet.
Proof. by_cases_on_char c. Qed.

Lemma isURIChar_existsb (c : ascii) :
  utils.isURIChar c = existsb (Ascii.eqb c) handleAlphabet.
Proof. by_cases_on_char c. Qed.

Lemma existsb_eqb_In (c : ascii) (l : list ascii) :
  existsb (Ascii.eqb c) l = true <-> In c l.
Proof.
  rewrite existsb_exists. split.
  - intros [x [Hx Heq]]. apply Ascii.eqb_eq in Heq. now subst.
  - intros H. exists c. split; [assumption | apply Ascii.eqb_refl].
Qed.

Lemma isNameChar_URI_or_underscore (c : ascii) :
  utils.isNameChar c = true -> utils.isURIChar c = true \/ c = "_"%char.
Proof.
  intros H. pose proof (isNameChar_implb c) as I. rewrite H in I. simpl in I.
  apply andb_true_iff in I. destruct I as [I _].
  apply orb_true_iff in I. destruct I as [I | I]; [now left | right].
  now apply Ascii.eqb_eq.
Qed.

Lemma isNameChar_not_dot (c : ascii) :
  utils.isNameChar c = true -> c <> "."%char.
Proof.
  intros H. pose proof (isNameChar_implb c) as I. rewrite H in I. simpl in I.
  apply andb_true_iff in I. destruct I as [_ I].
  apply negb_true_iff in I. now apply Ascii.eqb_neq.
Qed.

Lemma isURIChar_isNameChar (c : ascii) :
  utils.isURIChar c = true -> c <> "."%char -> utils.isNameChar c = true.
Proof.
  intros H Hdot. pose proof (isURIChar_implb c) as I. rewrite H in I. simpl in I.
  apply orb_true_iff in I. destruct I as [I | I]; [assumption | ].
  apply Ascii.eqb_eq in I. contradiction.
Qed.

Lemma isNameChar_alphabet (c : ascii) :
  utils.isNameChar c = true <-> In c nameAlphabet.
Proof. rewrite isNameChar_existsb. apply existsb_eqb_In. Qed.

Lemma isURIChar_alphabet (c : ascii) :
  utils.isURIChar c = true <-> In c handleAlphabet.
Proof. rewrite isURIChar_existsb. apply existsb_eqb_In. Qed.

(** ** Strings *)

Lemma string_app_assoc (a b c : string) : (a ++ b) ++ c = a ++ (b ++ c).
Proof. induction a as [| x a IH]; simpl; [reflexivity | now rewrite IH]. Qed.

Lemma string_app_nil_r (a : string) : a ++ "" = a.
Proof. induction a as [| x a IH]; simpl; [reflexivity | now rewrite IH]. Qed.

Lemma list_ascii_of_string_app (a b : string) :
  list_ascii_of_string (a ++ b)
  = (list_ascii_of_string a ++ list_ascii_of_string b)%list.
Proof. induction a as [| x a IH]; simpl; [reflexivity | now rewrite IH]. Qed.

Lemma list_ascii_of_string_inj (a b : string) :
  list_ascii_of_string a = list_ascii_of_string b -> a = b.
Proof.
  intros H. rewrite <- (string_of_list_ascii_of_string a),
    <- (string_of_list_ascii_of_string b). now rewrite H.
Qed.

Lemma string_app_inv_tail (a b t : string) : a ++ t = b ++ t -> a = b.
Proof.
  intros H. apply list_ascii_of_string_inj.
  apply (app_inv_tail (list_ascii_of_string t)).
  now rewrite <- !list_ascii_of_string_app, H.
Qed.

Lemma allChars_app (p : ascii -> bool) (a b : string) :
  regexp.allChars p (a ++ b) = regexp.allChars p a && regexp.allChars p b.
Proof.
  induction a as [| x a IH]; simpl; [reflexivity | ].
  now rewrite IH, andb_assoc.
Qed.

Lemma allChars_AllIn (p : ascii -> bool) (s : string) :
  regexp.allChars p s = true <-> AllIn (fun c => p c = true) s.
Proof.
  unfold AllIn. induction s as [| x s IH]; simpl.
  - split; [constructor | reflexivity].
  - rewrite andb_true_iff, IH. split.
    + intros [Hx Hs]. now constructor.
    + intros H. inversion H; subst. now split.
Qed.

Lemma allChars_impl (p q : ascii -> bool) (s : string) :
  (forall c, p c = true -> q c = true) ->
  regexp.allChars p s = true -> regexp.allChars q s = true.
Proof.
  intros Hpq. induction s as [| x s IH]; simpl; [reflexivity | ].
  rewrite !andb_true_iff. intros [Hx Hs]. split; auto.
Qed.

Lemma AllIn_impl (P Q : ascii -> Prop) (s : string) :
  (forall c, P c -> Q c) -> AllIn P s -> AllIn Q s.
Proof. intros HPQ. unfold AllIn. apply Forall_impl. exact HPQ. Qed.


(** A text is cut at its first dot in one way only. *)
Lemma first_dot_split (a b x y : string) :
  regexp.allChars notDot a = true ->
  regexp.allChars notDot b = true ->
  a ++ String "." x = b ++ String "." y ->
  a = b /\ x = y.
Proof.
  revert b. induction a as [| c a IH]; intros [| d b]; simpl; intros Ha Hb E.
  - injection E as E. now split.
  - injection E as E1 E2. subst d. discriminate Hb.
  - injection E as E1 E2. subst c. discriminate Ha.
  - injection E as E1 E2. subst d.
    apply andb_true_iff in Ha. apply andb_true_iff in Hb.
    destruct (IH b (proj2 Ha) (proj2 Hb) E2) as [-> ->]. now split.
Qed.

(** ** [ValidateName] *)

Lemma MatchString_anchored_plus_spec (C : ascii -> bool) (s : string) :
  regexp.MatchString_anchored_plus C s = true
  <-> s <> "" /\ regexp.allChars C s = true.
Proof.
  destruct s as [| c s]; simpl.
  - split; [discriminate | intros [H _]; now elim H].
  - split; [intros H; split; [discriminate | exact H] | intros [_ H]; exact H].
Qed.

Lemma ValidateName_true_inv (name : string) :
  utils.ValidateName name = (true, None)
  <-> (String.length name <= 128)%nat /\ name <> ""
      /\ regexp.allChars utils.isNameChar name = true.
Proof.
  unfold utils.ValidateName.
  destruct (128 <? String.length name)%nat eqn:L.
  - apply Nat.ltb_lt in L. split; [discriminate | intros [H _]; lia].
  - apply Nat.ltb_ge in L.
    destruct (regexp.MatchString_anchored_plus utils.isNameChar name) eqn:M; simpl.
    + apply MatchString_anchored_plus_spec in M. tauto.
    + split; [discriminate | ].
      intros [_ H]. apply MatchString_anchored_plus_spec in H. congruence.
Qed.

(** ** [ReplaceNonURIChars] and [FQDN] *)


Lemma cleanName_unfold (name : string) :
  cleanName name = regexp.replaceRuns nonURI "-" false name.
Proof. reflexivity. Qed.

Lemma FQDN_Ret (name type : string) :
  utils.FQDN name type = Ret (cleanName name ++ "." ++ type ++ ".shipyard.run").
Proof. reflexivity. Qed.

Lemma replaceRuns_cons (inrun : bool) (c : ascii) (s : string) :
  regexp.replaceRuns nonURI "-" inrun (String c s)
  = if utils.isURIChar c then String c (regexp.replaceRuns nonURI "-" false s)
    else if inrun then regexp.replaceRuns nonURI "-" true s
         else String "-" (regexp.replaceRuns nonURI "-" true s).
Proof. simpl. unfold nonURI. destruct (utils.isURIChar c), inrun; reflexivity. Qed.

Lemma isURIChar_dash : utils.isURIChar "-" = true.
Proof. reflexivity. Qed.

(** What comes out of the replacement lies in [[a-zA-Z0-9\-\.]]. *)
Lemma replaceRuns_URI (inrun : bool) (s : string) :
  regexp.allChars utils.isURIChar (regexp.replaceRuns nonURI "-" inrun s) = true.
Proof.
  revert inrun. induction s as [| c s IH]; intros inrun; [reflexivity | ].
  rewrite replaceRuns_cons. destruct (utils.isURIChar c) eqn:E.
  - cbn [regexp.allChars]. now rewrite E, IH.
  - destruct inrun; [apply IH | ].
    cbn [regexp.allChars]. now rewrite isURIChar_dash, IH.
Qed.

(** A text that lies in [[a-zA-Z0-9\-\.]] is left as it is. *)
Lemma replaceRuns_fixed (inrun : bool) (s : string) :
  regexp.allChars utils.isURIChar s = true ->
  regexp.replaceRuns nonURI "-" inrun s = s.
Proof.
  revert inrun. induction s as [| c s IH]; intros inrun H; [reflexivity | ].
  cbn [regexp.allChars] in H. apply andb_true_iff in H. destruct H as [Hc Hs].
  rewrite replaceRuns_cons, Hc. now rewrite IH.
Qed.

(** The replacement brings no dot into a text that had none. *)
Lemma replaceRuns_notDot (inrun : bool) (s : string) :
  regexp.allChars notDot s = true ->
  regexp.allChars notDot (regexp.replaceRuns nonURI "-" inrun s) = true.
Proof.
  revert inrun. induction s as [| c s IH]; intros inrun H; [reflexivity | ].
  cbn [regexp.allChars] in H. apply andb_true_iff in H. destruct H as [Hc Hs].
  rewrite replaceRuns_cons. destruct (utils.isURIChar c).
  - cbn [regexp.allChars]. now rewrite Hc, IH.
  - destruct inrun; [now apply IH | ].
    cbn [regexp.allChars]. now rewrite IH.
Qed.

Lemma nameChars_notDot (s : string) :
  regexp.allChars utils.isNameChar s = true -> regexp.allChars notDot s = true.
Proof.
  apply allChars_impl. intros c H. unfold notDot.
  apply negb_true_iff, Ascii.eqb_neq. now apply isNameChar_not_dot.
Qed.

Lemma nameChars_no_underscore_URI (s : string) :
  regexp.allChars utils.isNameChar s = true ->
  regexp.allChars notUnderscore s = true ->
  regexp.allChars utils.isURIChar s = true.
Proof.
  induction s as [| c s IH]; [reflexivity | ].
  cbn [regexp.allChars]. rewrite !andb_true_iff. intros [Hc Hs] [Uc Us].
  split; [ | now apply IH].
  destruct (isNameChar_URI_or_underscore c Hc) as [H | H]; [assumption | ].
  subst c. discriminate Uc.
Qed.

Lemma takeRun_dropRun (C : ascii -> bool) (s : string) :
  takeRun C s ++ dropRun C s = s.
Proof.
  induction s as [| c s IH]; simpl; [reflexivity | ].
  destruct (C c); simpl; [now rewrite IH | reflexivity].
Qed.

Lemma takeRun_all (C : ascii -> bool) (s : string) :
  regexp.allChars C (takeRun C s) = true.
Proof.
  induction s as [| c s IH]; simpl; [reflexivity | ].
  destruct (C c) eqn:E; simpl; [now rewrite E, IH | reflexivity].
Qed.

Lemma dropRun_length (C : ascii -> bool) (s : string) :
  (String.length (dropRun C s) <= String.length s)%nat.
Proof.
  induction s as [| c s IH]; simpl; [lia | ].
  destruct (C c); simpl; lia.
Qed.

Lemma dropRun_runEndsAt (s : string) : runEndsAt (dropRun nonURI s).
Proof.
  induction s as [| c s IH]; simpl; [exact I | ].
  unfold nonURI at 1. destruct (utils.isURIChar c) eqn:E; simpl;
    [now apply isURIChar_alphabet | assumption].
Qed.

Lemma nonURI_AllIn (run : string) :
  regexp.allChars nonURI run = true
  <-> AllIn (fun c => ~ In c handleAlphabet) run.
Proof.
  rewrite allChars_AllIn.
  split; apply AllIn_impl; intros c; unfold nonURI;
    rewrite <- isURIChar_alphabet; destruct (utils.isURIChar c); simpl;
    intros H; congruence.
Qed.

(** Inside a run, the characters up to its end are skipped. *)
Lemma replaceRuns_skip (run rest : string) :
  regexp.allChars nonURI run = true ->
  runEndsAt rest ->
  regexp.replaceRuns nonURI "-" true (run ++ rest)
  = regexp.replaceRuns nonURI "-" false rest.
Proof.
  intros Hrun Hrest. induction run as [| c run IH]; simpl append.
  - destruct rest as [| d rest]; [reflexivity | ].
    simpl in Hrest. apply isURIChar_alphabet in Hrest.
    now rewrite !replaceRuns_cons, Hrest.
  - cbn [regexp.allChars] in Hrun. apply andb_true_iff in Hrun.
    destruct Hrun as [Hc Hrun]. apply negb_true_iff in Hc.
    rewrite replaceRuns_cons, Hc. now apply IH.
Qed.

Lemma replaceRuns_run (run rest : string) :
  run <> "" ->
  regexp.allChars nonURI run = true ->
  runEndsAt rest ->
  regexp.replaceRuns nonURI "-" false (run ++ rest)
  = String "-" (regexp.replaceRuns nonURI "-" false rest).
Proof.
  intros Hne Hrun Hrest. destruct run as [| c run]; [now elim Hne | ].
  cbn [regexp.allChars] in Hrun. apply andb_true_iff in Hrun.
  destruct Hrun as [Hc Hrun]. apply negb_true_iff in Hc.
  simpl append. rewrite replaceRuns_cons, Hc. f_equal.
  now apply replaceRuns_skip.
Qed.

Lemma cleanName_RunsReplaced_upto (n : nat) (s : string) :
  (String.length s <= n)%nat -> RunsReplaced s (cleanName s).
Proof.
  revert s. induction n as [| n IH]; intros s Hlen.
  - destruct s; [apply RR_nil | simpl in Hlen; lia].
  - destruct s as [| c s]; [apply RR_nil | ]. simpl in Hlen.
    rewrite cleanName_unfold.
    destruct (utils.isURIChar c) eqn:E.
    + rewrite replaceRuns_cons, E.
      apply RR_keep; [now apply isURIChar_alphabet | ].
      apply IH. lia.
    + assert (Hc : nonURI c = true) by (unfold nonURI; now rewrite E).
      assert (Hsplit : String c s = String c (takeRun nonURI s) ++ dropRun nonURI s)
        by (simpl; now rewrite takeRun_dropRun).
      assert (Hall : regexp.allChars nonURI (String c (takeRun nonURI s)) = true)
        by (cbn [regexp.allChars]; now rewrite Hc, takeRun_all).
      rewrite Hsplit.
      rewrite replaceRuns_run;
        [ | discriminate | exact Hall | apply dropRun_runEndsAt ].
      apply RR_run;
        [discriminate | now apply nonURI_AllIn | apply dropRun_runEndsAt | ].
      apply IH. pose proof (dropRun_length nonURI s). lia.
Qed.

Lemma cleanName_RunsReplaced (s : string) : RunsReplaced s (cleanName s).
Proof. apply (cleanName_RunsReplaced_upto (String.length s)). lia. Qed.

Lemma RunsReplaced_cleanName (s out : string) :
  RunsReplaced s out -> out = cleanName s.
Proof.
  intros H. induction H as [| c s out Hc _ IH | run rest out Hne Hrun Hrest _ IH].
  - reflexivity.
  - apply isURIChar_alphabet in Hc.
    rewrite cleanName_unfold, replaceRuns_cons, Hc. now rewrite IH.
  - apply nonURI_AllIn in Hrun.
    rewrite cleanName_unfold, replaceRuns_run by assumption. now rewrite IH.
Qed.

Lemma IsDNSStyle_allChars (s : string) :
  IsDNSStyle s <-> regexp.allChars utils.isURIChar s = true.
Proof.
  rewrite allChars_AllIn. unfold IsDNSStyle.
  split; apply AllIn_impl; intros c; apply isURIChar_alphabet.
Qed.

Lemma MatchesNamePattern_allChars (s : string) :
  MatchesNamePattern s <-> s <> "" /\ regexp.allChars utils.isNameChar s = true.
Proof.
  rewrite allChars_AllIn. unfold MatchesNamePattern.
  split; intros [Hne H]; (split; [exact Hne | ]);
    revert H; apply AllIn_impl; intros c; apply isNameChar_alphabet.
Qed.


Example ValidateName_ex1 : utils.ValidateName "valid-name_1" = (true, None).
Proof. reflexivity. Qed.

Example FQDN_ex1 :
  utils.FQDN "consul container__http" "container_ingress"
  = Ret "consul-container-http.container_ingress.shipyard.run".
Proof. reflexivity. Qed.

(** ** Name validation *)

(** C3. [ValidateName] accepts a name, returning [true] and no error,
    exactly when the name has between 1 and 128 characters and matches
    [[A-Za-z0-9_-]+] (such a name is ASCII, so its characters are its
    bytes, which [len] counts).  ["valid-name_1"] is accepted, every name
    of 200 characters is rejected with [NameExceedsMaxLengthError], and
    ["bad name!"] is rejected with [NameContainsInvalidCharactersError]. *)
Theorem ValidateName_accepts_iff (name : string) :
  (utils.ValidateName name = (true, None)
   <-> (1 <= String.length name <= 128)%nat /\ MatchesNamePattern name)
  /\ (String.length name = 200%nat ->
      utils.ValidateName name = (false, Some utils.NameExceedsMaxLengthError))
  /\ utils.ValidateName "valid-name_1" = (true, None)
  /\ utils.ValidateName "bad name!"
     = (false, Some utils.NameContainsInvalidCharactersError).
Proof.
  split; [ | split; [ | split; reflexivity ] ].
  - rewrite ValidateName_true_inv, MatchesNamePattern_allChars. split.
    + intros (Hlen & Hne & Hall). repeat split; try assumption.
      destruct name; [now elim Hne | simpl; lia].
    + intros ([_ Hlen] & Hne & Hall). now repeat split.
  - intros Hlen. unfold utils.ValidateName. now rewrite Hlen.
Qed.

Lemma ValidateName_accepts_iff_witness :
  utils.ValidateName
    "aaaaaaaaaaaaaaaaaaaaaaaaaaaaaaaaaaaaaaaaaaaaaaaaaaaaaaaaaaaaaaaaaaaaaaaaaaaaaaaaaaaaaaaaaaaaaaaaaaaaaaaaaaaaaaaaaaaaaaaaaaaaaaaaaaaaaaaaaaaaaaaaaaaaaaaaaaaaaaaaaaaaaaaaaaaaaaaaaaaaaaaaaaaaaaaaaaaaaaaa"
  = (false, Some utils.NameExceedsMaxLengthError).
Proof.
  apply (ValidateName_accepts_iff
    "aaaaaaaaaaaaaaaaaaaaaaaaaaaaaaaaaaaaaaaaaaaaaaaaaaaaaaaaaaaaaaaaaaaaaaaaaaaaaaaaaaaaaaaaaaaaaaaaaaaaaaaaaaaaaaaaaaaaaaaaaaaaaaaaaaaaaaaaaaaaaaaaaaaaaaaaaaaaaaaaaaaaaaaaaaaaaaaaaaaaaaaaaaaaaaaaaaaaaaaa").
  reflexivity.
Defined.

(** C10. The length check of [ValidateName] comes first: a name longer
    than 128 characters is rejected with [NameExceedsMaxLengthError],
    whatever its characters are. *)
Theorem ValidateName_length_first (name : string) :
  (128 < String.length name)%nat ->
  utils.ValidateName name = (false, Some utils.NameExceedsMaxLengthError).
Proof.
  intros Hlen. unfold utils.ValidateName.
  apply Nat.ltb_lt in Hlen. now rewrite Hlen.
Qed.

Lemma ValidateName_length_first_witness :
  regexp.allChars utils.isNameChar
    "bad name!bad name!bad name!bad name!bad name!bad name!bad name!bad name!bad name!bad name!bad name!bad name!bad name!bad name!bad"
  = false
  /\ utils.ValidateName
       "bad name!bad name!bad name!bad name!bad name!bad name!bad name!bad name!bad name!bad name!bad name!bad name!bad name!bad name!bad"
     = (false, Some utils.NameExceedsMaxLengthError).
Proof.
  split; [reflexivity | ].
  apply (ValidateName_length_first
    "bad name!bad name!bad name!bad name!bad name!bad name!bad name!bad name!bad name!bad name!bad name!bad name!bad name!bad name!bad").
  vm_compute. reflexivity.
Defined.

(** ** Handles *)

(** C4, as stated, fails: two adjacent characters outside
    [[A-Za-z0-9.-]] give one ['-'] in the handle, not two. *)
Lemma FQDN_not_spec_Address :
  utils.FQDN "consul__http" "container" = Ret "consul-http.container.shipyard.run"
  /\ spec_Address "consul__http" "container" = "consul--http.container.shipyard.run"
  /\ utils.FQDN "consul__http" "container"
     <> Ret (spec_Address "consul__http" "container").
Proof. repeat split. discriminate. Qed.

(** C4, amended.  The handle returned by [FQDN] is the name in which every
    maximal run of characters outside [[A-Za-z0-9.-]] is replaced by a
    single ['-'], followed by ['.'], the type and [.shipyard.run]. *)
Theorem FQDN_runs_replaced (name type : string) :
  exists clean : string,
    (forall out, RunsReplaced name out <-> out = clean)
    /\ utils.FQDN name type = Ret (clean ++ "." ++ type ++ ".shipyard.run").
Proof.
  exists (cleanName name). split; [ | apply FQDN_Ret].
  intros out. split.
  - apply RunsReplaced_cleanName.
  - intros ->. apply cleanName_RunsReplaced.
Qed.

(** C9. [ReplaceNonURIChars] is idempotent, so [FQDN] of a name that has
    been sanitized has that very name as its name part, and is the handle of
    the name before sanitization. *)
Theorem ReplaceNonURIChars_idempotent (s type : string) :
  utils.ReplaceNonURIChars (fst (utils.ReplaceNonURIChars s))
  = utils.ReplaceNonURIChars s
  /\ utils.FQDN (fst (utils.ReplaceNonURIChars s)) type
     = Ret (fst (utils.ReplaceNonURIChars s) ++ "." ++ type ++ ".shipyard.run")
  /\ utils.FQDN (fst (utils.ReplaceNonURIChars s)) type = utils.FQDN s type.
Proof.
  assert (E : cleanName (cleanName s) = cleanName s).
  { rewrite (cleanName_unfold (cleanName s)). apply replaceRuns_fixed.
    rewrite cleanName_unfold. apply replaceRuns_URI. }
  fold (cleanName s). repeat split.
  - unfold utils.ReplaceNonURIChars. f_equal. exact E.
  - rewrite FQDN_Ret. now rewrite E.
  - rewrite !FQDN_Ret. now rewrite E.
Qed.

(** C1, as stated, fails: the valid names [consul_http] and [consul-http]
    are different, and with the same type they get the same handle. *)
Lemma FQDN_collision :
  utils.ValidateName "consul_http" = (true, None)
  /\ utils.ValidateName "consul-http" = (true, None)
  /\ ("consul_http", TypeContainer) <> ("consul-http", TypeContainer)
  /\ utils.FQDN "consul_http" TypeContainer = utils.FQDN "consul-http" TypeContainer.
Proof. repeat split. discriminate. Qed.

(** C1, amended.  For two (name, type) pairs whose names are valid resource
    names, the handles are equal exactly when the types are equal and the
    names are equal after sanitization.  So pairs of different types never
    get the same handle, and neither do different pairs whose names have no
    ['_'] (the one character of a valid name that sanitization changes). *)
Theorem FQDN_equal_iff (name1 type1 name2 type2 : string) :
  utils.ValidateName name1 = (true, None) ->
  utils.ValidateName name2 = (true, None) ->
  (utils.FQDN name1 type1 = utils.FQDN name2 type2
   <-> fst (utils.ReplaceNonURIChars name1) = fst (utils.ReplaceNonURIChars name2)
       /\ type1 = type2)
  /\ (type1 <> type2 -> utils.FQDN name1 type1 <> utils.FQDN name2 type2)
  /\ (AllIn (fun c => c <> "_"%char) name1 ->
      AllIn (fun c => c <> "_"%char) name2 ->
      (name1, type1) <> (name2, type2) ->
      utils.FQDN name1 type1 <> utils.FQDN name2 type2).
Proof.
  intros V1 V2.
  apply ValidateName_true_inv in V1. destruct V1 as (_ & _ & N1).
  apply ValidateName_true_inv in V2. destruct V2 as (_ & _ & N2).
  fold (cleanName name1) (cleanName name2).
  assert (Hiff : utils.FQDN name1 type1 = utils.FQDN name2 type2
                 <-> cleanName name1 = cleanName name2 /\ type1 = type2).
  { rewrite !FQDN_Ret. split.
    - intros E. injection E as E.
      change ("." ++ type1 ++ ".shipyard.run")
        with (String "." (type1 ++ ".shipyard.run")) in E.
      change ("." ++ type2 ++ ".shipyard.run")
        with (String "." (type2 ++ ".shipyard.run")) in E.
      apply first_dot_split in E.
      + destruct E as [Ec Et]. split; [exact Ec | ].
        now apply string_app_inv_tail in Et.
      + rewrite cleanName_unfold. now apply replaceRuns_notDot, nameChars_notDot.
      + rewrite cleanName_unfold. now apply replaceRuns_notDot, nameChars_notDot.
    - intros [-> ->]. reflexivity. }
  split; [exact Hiff | split].
  - intros Hne E. apply Hiff in E. now destruct E.
  - intros U1 U2 Hne E. apply Hiff in E. destruct E as [Ec Et].
    apply Hne. f_equal; [ | exact Et].
    assert (Hfix : forall n, regexp.allChars utils.isNameChar n = true ->
                             AllIn (fun c => c <> "_"%char) n -> cleanName n = n).
    { intros n Hn Hu. rewrite cleanName_unfold. apply replaceRuns_fixed.
      apply nameChars_no_underscore_URI; [exact Hn | ].
      apply allChars_AllIn. revert Hu. apply AllIn_impl.
      intros c Hc. unfold notUnderscore. now apply negb_true_iff, Ascii.eqb_neq. }
    now rewrite <- (Hfix name1 N1 U1), <- (Hfix name2 N2 U2).
Qed.

Lemma FQDN_equal_iff_witness :
  (utils.FQDN "consul_http" "container" = utils.FQDN "consul-http" "container"
   <-> fst (utils.ReplaceNonURIChars "consul_http")
       = fst (utils.ReplaceNonURIChars "consul-http")
       /\ "container" = "container")
  /\ ("container" <> "container" ->
      utils.FQDN "consul_http" "container" <> utils.FQDN "consul-http" "container")
  /\ (AllIn (fun c => c <> "_"%char) "consul_http" ->
      AllIn (fun c => c <> "_"%char) "consul-http" ->
      ("consul_http", "container") <> ("consul-http", "container") ->
      utils.FQDN "consul_http" "container" <> utils.FQDN "consul-http" "container").
Proof.
  apply (FQDN_equal_iff "consul_http" "container" "consul-http" "container");
    reflexivity.
Defined.




(** ** [getLoggable] *)

Lemma clientLoop_spec (iters : nat) (n : Z) (name : string) (type : ResourceType)
      (loggable : list string) :
  cmd.clientLoop iters n name type loggable
  = Ret (loggable
         ++ clientHandles n iters
              (cleanName name ++ "." ++ type ++ ".shipyard.run")%string)%list.
Proof.
  revert n loggable. induction iters as [| k IH]; intros n loggable.
  - simpl. unfold clientHandles. simpl. now rewrite app_nil_r.
  - cbn [cmd.clientLoop]. rewrite FQDN_Ret. cbn [bind]. rewrite IH.
    unfold go_append, clientHandles. rewrite <- app_assoc. do 2 f_equal.
    cbn [seq map app]. rewrite <- (seq_shift k 1), map_map. f_equal.
    apply map_ext. intros i. do 2 f_equal. lia.
Qed.

Lemma appendFQDN_Ret (loggable : list string) (r : Resource) :
  cmd.appendFQDN loggable r = Ret (loggable ++ [fqdnOf r])%list.
Proof. reflexivity. Qed.

Lemma appendServer_Ret (loggable : list string) (r : Resource) :
  cmd.appendServer loggable r = Ret (loggable ++ [("server." ++ fqdnOf r)%string])%list.
Proof. reflexivity. Qed.

(** What a resource adds does not depend on what was listed before it. *)
Lemma loggableStep_acc (loggable : list string) (r : Resource) :
  cmd.loggableStep loggable r
  = (l <- cmd.loggableStep [] r ;; Ret (loggable ++ l)%list).
Proof.
  unfold cmd.loggableStep. cbv zeta. switch_cases;
    destruct (Info_Disabled (Info r)); cbn [negb];
    rewrite ?appendFQDN_Ret, ?appendServer_Ret; cbn [bind app];
    rewrite ?app_nil_r; try reflexivity.
  destruct r as [nomad | info]; cbn [assertNomadCluster bind]; [ | reflexivity].
  rewrite !clientLoop_spec. cbn [bind app]. now rewrite <- app_assoc.
Qed.

Lemma loggableLoop_acc (resources : list Resource) (loggable : list string) :
  cmd.loggableLoop resources loggable
  = (l <- cmd.loggableLoop resources [] ;; Ret (loggable ++ l)%list).
Proof.
  revert loggable. induction resources as [| r rest IH]; intros loggable.
  - simpl. now rewrite app_nil_r.
  - cbn [cmd.loggableLoop]. rewrite loggableStep_acc.
    destruct (cmd.loggableStep [] r) as [l0 | e]; cbn [bind]; [ | reflexivity].
    rewrite IH, (IH l0).
    destruct (cmd.loggableLoop rest []) as [l' | e]; cbn [bind]; [ | reflexivity].
    now rewrite app_assoc.
Qed.

Lemma loggableLoop_app (rs1 rs2 : list Resource) (loggable : list string) :
  cmd.loggableLoop (rs1 ++ rs2) loggable
  = (l <- cmd.loggableLoop rs1 loggable ;; cmd.loggableLoop rs2 l).
Proof.
  revert loggable. induction rs1 as [| r rs1 IH]; intros loggable; [reflexivity | ].
  cbn [app cmd.loggableLoop].
  destruct (cmd.loggableStep loggable r); cbn [bind]; [apply IH | reflexivity].
Qed.

(** The listing of a resource set, from the listings of what comes before a
    resource, of the resource, and of what comes after it. *)
Lemma loggableLoop_split (before after : list Resource) (r : Resource)
      (l1 hs l2 : list string) :
  cmd.loggableLoop before [] = Ret l1 ->
  cmd.loggableStep [] r = Ret hs ->
  cmd.loggableLoop after [] = Ret l2 ->
  cmd.loggableLoop (before ++ r :: after) [] = Ret (l1 ++ hs ++ l2)%list.
Proof.
  intros H1 Hr H2. rewrite loggableLoop_app, H1. cbn [bind cmd.loggableLoop].
  rewrite loggableStep_acc, Hr. cbn [bind].
  rewrite loggableLoop_acc, H2. cbn [bind]. now rewrite app_assoc.
Qed.

Lemma getLoggable_loaded (resources : list Resource) :
  cmd.getLoggable ({| Resources := resources |}, None)
  = (l <- cmd.loggableLoop resources [] ;; Ret (l, None)).
Proof. reflexivity. Qed.

Lemma getLoggable_loaded_inv (resources : list Resource) (l : list string) :
  cmd.getLoggable ({| Resources := resources |}, None) = Ret (l, None)
  <-> cmd.loggableLoop resources [] = Ret l.
Proof.
  rewrite getLoggable_loaded.
  destruct (cmd.loggableLoop resources []) as [l' | e]; cbn [bind].
  - split; intros H; injection H as ->; reflexivity.
  - split; discriminate.
Qed.

(** A resource of a type without a [case] adds nothing. *)
Lemma loggableStep_unlisted (loggable : list string) (r : Resource) :
  ~ In (Info_Type (Info r)) loggableTypes ->
  cmd.loggableStep loggable r = Ret loggable.
Proof.
  intros Hnot. unfold cmd.loggableStep. cbv zeta.
  switch_cases; try reflexivity; exfalso; apply Hnot;
    match goal with e : Info_Type (Info r) = _ |- _ => rewrite e end;
    simpl; tauto.
Qed.

(** A disabled resource adds nothing, unless it is an image cache. *)
Lemma loggableStep_disabled (loggable : list string) (r : Resource) :
  Info_Disabled (Info r) = true ->
  Info_Type (Info r) <> TypeImageCache ->
  cmd.loggableStep loggable r = Ret loggable.
Proof.
  intros Hdis Hty. unfold cmd.loggableStep. cbv zeta. rewrite Hdis. cbn [negb].
  switch_cases; try reflexivity. contradiction.
Qed.

Lemma loggableStep_k8s (loggable : list string) (r : Resource) :
  Info_Type (Info r) = TypeK8sCluster ->
  Info_Disabled (Info r) = false ->
  cmd.loggableStep loggable r = Ret (loggable ++ [("server." ++ fqdnOf r)%string])%list.
Proof.
  intros Hty Hdis. unfold cmd.loggableStep. cbv zeta.
  rewrite Hty, Hdis. cbn [negb]. reflexivity.
Qed.

Lemma loggableStep_nomad (loggable : list string) (nomad : NomadCluster) :
  Info_Type (NomadCluster_Info nomad) = TypeNomadCluster ->
  Info_Disabled (NomadCluster_Info nomad) = false ->
  cmd.loggableStep loggable (IsNomadCluster nomad)
  = Ret (loggable
         ++ ("server." ++ fqdnOf (IsNomadCluster nomad))%string
            :: clientHandles 0 (Z.to_nat (ClientNodes nomad))
                 (fqdnOf (IsNomadCluster nomad)))%list.
Proof.
  intros Hty Hdis. unfold cmd.loggableStep. cbv zeta. cbn [Info].
  rewrite Hty, Hdis. cbn [negb String.eqb Ascii.eqb Bool.eqb].
  rewrite appendServer_Ret. cbn [bind assertNomadCluster].
  rewrite clientLoop_spec, Z.sub_0_r, <- app_assoc. cbn [Info app].
  unfold fqdnOf. cbn [Info]. now rewrite Hty.
Qed.

Lemma loggableStep_listed (r : Resource) (hs : list string) (h : string) :
  cmd.loggableStep [] r = Ret hs -> In h hs ->
  In (Info_Type (Info r)) loggableTypes.
Proof.
  intros Hstep Hin.
  destruct (in_dec string_dec (Info_Type (Info r)) loggableTypes) as [Hy | Hn];
    [exact Hy | ].
  rewrite (loggableStep_unlisted [] r Hn) in Hstep. injection Hstep as <-.
  contradiction.
Qed.

Lemma loggableLoop_origin (resources : list Resource) (l : list string) (h : string) :
  cmd.loggableLoop resources [] = Ret l -> In h l ->
  exists r hs, In r resources /\ cmd.loggableStep [] r = Ret hs /\ In h hs.
Proof.
  revert l. induction resources as [| r rest IH]; intros l Hloop Hin.
  - injection Hloop as <-. contradiction.
  - cbn [cmd.loggableLoop] in Hloop.
    destruct (cmd.loggableStep [] r) as [l0 | e] eqn:Hstep; cbn [bind] in Hloop;
      [ | discriminate].
    rewrite loggableLoop_acc in Hloop.
    destruct (cmd.loggableLoop rest []) as [l' | e] eqn:Hrest; cbn [bind] in Hloop;
      [ | discriminate].
    injection Hloop as <-. apply in_app_or in Hin. destruct Hin as [Hin | Hin].
    + exists r, l0. repeat split; [now left | assumption | assumption].
    + destruct (IH l' eq_refl Hin) as (r' & hs & Hr' & Hs & Hh).
      exists r', hs. repeat split; [now right | assumption | assumption].
Qed.

(** *** When the listing returns *)

Lemma loggableStep_returns_iff (r : Resource) :
  (exists hs, cmd.loggableStep [] r = Ret hs) <-> AssertionHolds r.
Proof.
  split.
  - intros [hs H] Hty Hdis. destruct r as [nomad | info]; [now exists nomad | ].
    exfalso. unfold cmd.loggableStep in H. cbv zeta in H.
    rewrite Hty, Hdis in H. discriminate H.
  - intros Hr. unfold AssertionHolds in Hr.
    destruct (Info_Disabled (Info r)) eqn:Hdis.
    + destruct (String.eqb_spec (Info_Type (Info r)) TypeImageCache) as [E | E].
      * exists [fqdnOf r]. unfold cmd.loggableStep. cbv zeta. rewrite E.
        reflexivity.
      * exists []. now apply loggableStep_disabled.
    + destruct (String.eqb_spec (Info_Type (Info r)) TypeNomadCluster) as [E | E].
      * destruct (Hr E eq_refl) as [nomad ->]. eexists.
        now apply loggableStep_nomad.
      * unfold cmd.loggableStep. cbv zeta. rewrite Hdis. cbn [negb].
        switch_cases; rewrite ?appendFQDN_Ret, ?appendServer_Ret;
          try contradiction; eauto.
Qed.

Lemma loggableLoop_returns_iff (resources : list Resource) :
  (exists l, cmd.loggableLoop resources [] = Ret l)
  <-> Forall AssertionHolds resources.
Proof.
  induction resources as [| r rest IH].
  - split; [constructor | now exists [] ].
  - split.
    + intros [l H]. cbn [cmd.loggableLoop] in H.
      destruct (cmd.loggableStep [] r) as [l0 | e] eqn:Hs; cbn [bind] in H;
        [ | discriminate].
      rewrite loggableLoop_acc in H.
      destruct (cmd.loggableLoop rest []) as [l' | e] eqn:Hr; cbn [bind] in H;
        [ | discriminate].
      constructor.
      * apply loggableStep_returns_iff. now exists l0.
      * apply IH. now exists l'.
    + intros H. inversion H as [| ? ? Hr Hrest]; subst.
      apply loggableStep_returns_iff in Hr. destruct Hr as [hs Hs].
      apply IH in Hrest. destruct Hrest as [l' Hl'].
      exists (hs ++ l')%list.
      cbn [cmd.loggableLoop]. rewrite Hs. cbn [bind].
      rewrite loggableLoop_acc, Hl'. reflexivity.
Qed.

(** A disabled resource that is not an image cache can be taken out of the
    set without changing the listing. *)
Lemma getLoggable_disabled_removed (before after : list Resource) (r : Resource) :
  Info_Disabled (Info r) = true ->
  Info_Type (Info r) <> TypeImageCache ->
  cmd.getLoggable ({| Resources := before ++ r :: after |}, None)
  = cmd.getLoggable ({| Resources := before ++ after |}, None).
Proof.
  intros Hdis Hty. rewrite !getLoggable_loaded, !loggableLoop_app.
  destruct (cmd.loggableLoop before []) as [l | e]; cbn [bind]; [ | reflexivity].
  cbn [cmd.loggableLoop]. now rewrite (loggableStep_disabled l r Hdis Hty).
Qed.

(** When the state file cannot be read, the error is handed on. *)
Example getLoggable_load_error :
  cmd.getLoggable ({| Resources := [] |}, Some "no such file")
  = Ret ([], Some "unable to load state file, check you have running resources: no such file").
Proof. reflexivity. Qed.

(** The type assertion in the [case] of [TypeNomadCluster] panics on a
    resource that says it is a nomad cluster and is of another concrete
    type; the constructors of package [config] build no such resource. *)
Example getLoggable_assertion_panics :
  exists e,
    cmd.getLoggable
      ({| Resources :=
            [IsOther {| Info_Name := "db"; Info_Type := TypeNomadCluster;
                        Info_Status := Created; Info_Disabled := false |}] |}, None)
    = Panic e.
Proof. eexists. reflexivity. Qed.

(** C2, on the code: a disabled image cache is listed.  The [case] of
    [TypeImageCache] is the only one of [getLoggable] that does not test
    [Disabled]. *)
Theorem getLoggable_lists_disabled_image_cache :
  cmd.getLoggable
    ({| Resources :=
          [IsOther {| Info_Name := "docker-cache"; Info_Type := TypeImageCache;
                      Info_Status := Disabled; Info_Disabled := true |}] |},
     None)
  = Ret (["docker-cache.image_cache.shipyard.run"], None).
Proof. reflexivity. Qed.

(** C6. A nomad cluster that is not disabled and has [N] client nodes is
    listed with exactly [1 + N] handles, which follow what the resources
    before it are listed with and precede what the resources after it are
    listed with: first [server.] and the handle of the resource, then
    [i.client.] and the handle of the resource for [i] from 1 to [N] in
    ascending order; these are four handles when [N] is 3.  ([ClientNodes]
    is a Go [int]: the count [1 + N] is that of a number of nodes, [0 <= N];
    the list is the one described for every [N].) *)
Theorem getLoggable_nomad_cluster
        (before after : list Resource) (info : ResourceInfo) (N : Z)
        (l1 l2 : list string) :
  Info_Type info = TypeNomadCluster ->
  Info_Disabled info = false ->
  cmd.getLoggable ({| Resources := before |}, None) = Ret (l1, None) ->
  cmd.getLoggable ({| Resources := after |}, None) = Ret (l2, None) ->
  let nomad := IsNomadCluster {| NomadCluster_Info := info; ClientNodes := N |} in
  exists fqdn : string,
    utils.FQDN (Info_Name info) (Info_Type info) = Ret fqdn
    /\ let handles :=
         ("server." ++ fqdn)%string
         :: map (fun i => cmd.itoa (Z.of_nat i) ++ ".client." ++ fqdn)%string
                (seq 1 (Z.to_nat N)) in
       cmd.getLoggable ({| Resources := before ++ nomad :: after |}, None)
       = Ret ((l1 ++ handles ++ l2)%list, None)
       /\ ((0 <= N)%Z -> Z.of_nat (List.length handles) = (1 + N)%Z)
       /\ (N = 3%Z ->
           handles = [("server." ++ fqdn)%string; ("1.client." ++ fqdn)%string;
                      ("2.client." ++ fqdn)%string; ("3.client." ++ fqdn)%string]).
Proof.
  intros Hty Hdis H1 H2 nomad.
  apply getLoggable_loaded_inv in H1. apply getLoggable_loaded_inv in H2.
  exists (fqdnOf nomad). split; [apply FQDN_Ret | ]. cbv zeta.
  split; [ | split].
  - apply getLoggable_loaded_inv.
    apply loggableLoop_split; [exact H1 | | exact H2].
    unfold nomad. rewrite loggableStep_nomad by assumption. reflexivity.
  - intros HN. cbn [List.length]. rewrite length_map, length_seq. lia.
  - intros ->. reflexivity.
Qed.

Lemma getLoggable_nomad_cluster_witness :
  exists fqdn : string,
    utils.FQDN "db" TypeNomadCluster = Ret fqdn
    /\ cmd.getLoggable
         ({| Resources :=
               [IsNomadCluster
                  {| NomadCluster_Info :=
                       {| Info_Name := "db"; Info_Type := TypeNomadCluster;
                          Info_Status := Created; Info_Disabled := false |};
                     ClientNodes := 3%Z |}] |}, None)
       = Ret (["server.db.nomad_cluster.shipyard.run";
               "1.client.db.nomad_cluster.shipyard.run";
               "2.client.db.nomad_cluster.shipyard.run";
               "3.client.db.nomad_cluster.shipyard.run"], None).
Proof.
  destruct (getLoggable_nomad_cluster [] []
              {| Info_Name := "db"; Info_Type := TypeNomadCluster;
                 Info_Status := Created; Info_Disabled := false |} 3%Z [] []
              eq_refl eq_refl eq_refl eq_refl)
    as (fqdn & Hfqdn & Hlist & _ & H3).
  exists fqdn. split; [exact Hfqdn | ].
  rewrite (H3 eq_refl) in Hlist. injection Hfqdn as <-. exact Hlist.
Defined.

(** C8. [getLoggable] lists handles only for resources of the types
    [container], [sidecar], [container_ingress], [k8s_cluster],
    [k8s_ingress], [nomad_cluster], [nomad_ingress] and [image_cache]: for a
    resource set in which the type assertions hold it returns a listing, and
    every handle of the listing is one of those that such a resource of the
    set is listed with.  A resource of another type, as [network] or
    [exec_local], is listed with no handle, whatever its [Disabled] says,
    and can be taken out of a set without changing the listing.  A k8s
    cluster that is not disabled is listed with its one server handle,
    whatever its number of nodes, alone and between other resources. *)
Theorem getLoggable_listed_types :
  (forall resources : list Resource,
      Forall AssertionHolds resources ->
      exists l : list string,
        cmd.getLoggable ({| Resources := resources |}, None) = Ret (l, None)
        /\ forall h : string,
            In h l ->
            exists (r : Resource) (hs : list string),
              In r resources /\ In (Info_Type (Info r)) loggableTypes
              /\ cmd.getLoggable ({| Resources := [r] |}, None) = Ret (hs, None)
              /\ In h hs)
  /\ (forall r : Resource,
         ~ In (Info_Type (Info r)) loggableTypes ->
         cmd.getLoggable ({| Resources := [r] |}, None) = Ret ([], None)
         /\ forall before after : list Resource,
             cmd.getLoggable ({| Resources := before ++ r :: after |}, None)
             = cmd.getLoggable ({| Resources := before ++ after |}, None))
  /\ ~ In TypeNetwork loggableTypes
  /\ ~ In TypeExecLocal loggableTypes
  /\ (forall r : Resource,
         Info_Type (Info r) = TypeK8sCluster ->
         Info_Disabled (Info r) = false ->
         exists fqdn : string,
           utils.FQDN (Info_Name (Info r)) (Info_Type (Info r)) = Ret fqdn
           /\ cmd.getLoggable ({| Resources := [r] |}, None)
              = Ret ([("server." ++ fqdn)%string], None)
           /\ forall (before after : list Resource) (l1 l2 : list string),
               cmd.getLoggable ({| Resources := before |}, None) = Ret (l1, None) ->
               cmd.getLoggable ({| Resources := after |}, None) = Ret (l2, None) ->
               cmd.getLoggable ({| Resources := before ++ r :: after |}, None)
               = Ret ((l1 ++ [("server." ++ fqdn)%string] ++ l2)%list, None)).
Proof.
  split; [ | split; [ | split; [ | split ] ] ].
  - intros resources Hwt. apply loggableLoop_returns_iff in Hwt.
    destruct Hwt as [l Hl]. exists l.
    split; [now apply getLoggable_loaded_inv | ]. intros h Hin.
    destruct (loggableLoop_origin resources l h Hl Hin) as (r & hs & Hr & Hs & Hh).
    exists r, hs. repeat split; try assumption.
    + exact (loggableStep_listed r hs h Hs Hh).
    + apply getLoggable_loaded_inv. cbn [cmd.loggableLoop]. now rewrite Hs.
  - intros r Hnot. split.
    + apply getLoggable_loaded_inv. cbn [cmd.loggableLoop].
      now rewrite (loggableStep_unlisted [] r Hnot).
    + intros before after. rewrite !getLoggable_loaded, !loggableLoop_app.
      destruct (cmd.loggableLoop before []) as [l | e]; cbn [bind]; [ | reflexivity].
      cbn [cmd.loggableLoop]. now rewrite (loggableStep_unlisted l r Hnot).
  - intros H. simpl in H. repeat (destruct H as [H | H]; [discriminate H | ]).
    exact H.
  - intros H. simpl in H. repeat (destruct H as [H | H]; [discriminate H | ]).
    exact H.
  - intros r Hty Hdis. exists (fqdnOf r).
    split; [apply FQDN_Ret | split].
    + apply getLoggable_loaded_inv. cbn [cmd.loggableLoop].
      now rewrite (loggableStep_k8s [] r Hty Hdis).
    + intros before after l1 l2 H1 H2.
      apply getLoggable_loaded_inv in H1. apply getLoggable_loaded_inv in H2.
      apply getLoggable_loaded_inv.
      apply loggableLoop_split; [exact H1 | | exact H2].
      now rewrite loggableStep_k8s.
Qed.

Lemma getLoggable_listed_types_witness :
  cmd.getLoggable
    ({| Resources :=
          [IsOther {| Info_Name := "consul"; Info_Type := TypeContainer;
                      Info_Status := Created; Info_Disabled := false |};
           IsOther {| Info_Name := "setup_vault"; Info_Type := TypeExecLocal;
                      Info_Status := Created; Info_Disabled := false |};
           IsOther {| Info_Name := "k3s"; Info_Type := TypeK8sCluster;
                      Info_Status := Created; Info_Disabled := false |}] |}, None)
  = Ret (["consul.container.shipyard.run";
          "server.k3s.k8s_cluster.shipyard.run"], None).
Proof.
  destruct getLoggable_listed_types as (_ & Hother & _ & Hexec & Hk8s).
  destruct (Hother
              (IsOther {| Info_Name := "setup_vault"; Info_Type := TypeExecLocal;
                          Info_Status := Created; Info_Disabled := false |})
              Hexec) as [_ Hdrop].
  refine (eq_trans
            (Hdrop
               [IsOther {| Info_Name := "consul"; Info_Type := TypeContainer;
                           Info_Status := Created; Info_Disabled := false |}]
               [IsOther {| Info_Name := "k3s"; Info_Type := TypeK8sCluster;
                           Info_Status := Created; Info_Disabled := false |}]) _).
  destruct (Hk8s
              (IsOther {| Info_Name := "k3s"; Info_Type := TypeK8sCluster;
                          Info_Status := Created; Info_Disabled := false |})
              eq_refl eq_refl) as (fqdn & Hfqdn & _ & Hbetween).
  injection Hfqdn as <-.
  exact (Hbetween
           [IsOther {| Info_Name := "consul"; Info_Type := TypeContainer;
                       Info_Status := Created; Info_Disabled := false |}]
           [] ["consul.container.shipyard.run"] [] eq_refl eq_refl).
Defined.

(** * Further properties of the code *)

(** ** Further facts on strings *)

Lemma string_length_app (a b : string) :
  String.length (a ++ b) = (String.length a + String.length b)%nat.
Proof. induction a as [| c a IH]; simpl; [reflexivity | now rewrite IH]. Qed.

Lemma substring_app_l (a b : string) : substring 0 (String.length a) (a ++ b) = a.
Proof.
  induction a as [| c a IH]; simpl.
  - destruct b; reflexivity.
  - now rewrite IH.
Qed.

Lemma substring_app_r (a b : string) :
  substring (String.length a) (String.length b) (a ++ b) = b.
Proof.
  induction a as [| c a IH]; simpl; [ | exact IH].
  induction b as [| d b IHb]; simpl; [reflexivity | now rewrite IHb].
Qed.

Lemma HasSuffix_app (a suffix : string) : strings.HasSuffix (a ++ suffix) suffix = true.
Proof.
  unfold strings.HasSuffix. rewrite string_length_app.
  replace (String.length a + String.length suffix - String.length suffix)%nat
    with (String.length a) by lia.
  rewrite substring_app_r, String.eqb_refl, andb_true_r.
  apply Nat.leb_le. lia.
Qed.

Lemma TrimSuffix_app (a suffix : string) : strings.TrimSuffix (a ++ suffix) suffix = a.
Proof.
  unfold strings.TrimSuffix. rewrite HasSuffix_app, string_length_app.
  replace (String.length a + String.length suffix - String.length suffix)%nat
    with (String.length a) by lia.
  apply substring_app_l.
Qed.

(** X6. The handle of [FQDN] ends in [.shipyard.run], and with that cut
    off by [strings.TrimSuffix], as [writeLogOutput] does for its label, it
    is the sanitized name, a dot and the type. *)
Theorem FQDN_TrimSuffix (name type : string) :
  exists handle : string,
    utils.FQDN name type = Ret handle
    /\ strings.HasSuffix handle ".shipyard.run" = true
    /\ strings.TrimSuffix handle ".shipyard.run"
       = fst (utils.ReplaceNonURIChars name) ++ "." ++ type.
Proof.
  exists ((cleanName name ++ "." ++ type) ++ ".shipyard.run"). split; [ | split].
  - rewrite FQDN_Ret, string_app_assoc. reflexivity.
  - apply HasSuffix_app.
  - apply TrimSuffix_app.
Qed.

(** X1. The three outcomes of [ValidateName]: it gives
    [NameExceedsMaxLengthError] exactly for the names longer than 128, it
    gives [NameContainsInvalidCharactersError] exactly for the names of at
    most 128 that do not match [[A-Za-z0-9_-]+] (the empty name is one), and
    its boolean is [true] exactly when it gives no error. *)
Theorem ValidateName_outcomes (name : string) :
  (utils.ValidateName name = (false, Some utils.NameExceedsMaxLengthError)
   <-> (128 < String.length name)%nat)
  /\ (utils.ValidateName name = (false, Some utils.NameContainsInvalidCharactersError)
      <-> (String.length name <= 128)%nat /\ ~ MatchesNamePattern name)
  /\ (fst (utils.ValidateName name) = true <-> snd (utils.ValidateName name) = None).
Proof.
  unfold utils.ValidateName.
  destruct (128 <? String.length name)%nat eqn:L.
  - apply Nat.ltb_lt in L. simpl.
    repeat split; intros; try discriminate; try lia; reflexivity.
  - apply Nat.ltb_ge in L.
    destruct (regexp.MatchString_anchored_plus utils.isNameChar name) eqn:M; simpl.
    + apply MatchString_anchored_plus_spec in M.
      apply MatchesNamePattern_allChars in M.
      repeat split; intros; try discriminate; try lia; try reflexivity.
      destruct H; contradiction.
    + repeat split; intros; try discriminate; try lia; try reflexivity;
        try assumption.
      intros H'. apply MatchesNamePattern_allChars in H'.
      apply MatchString_anchored_plus_spec in H'. congruence.
Qed.

(** X2. Two names that are not empty, put one after the other, make a name
    that [ValidateName] accepts exactly when it accepts both and their
    lengths sum to at most 128. *)
Theorem ValidateName_app (a b : string) :
  a <> "" -> b <> "" ->
  (utils.ValidateName (a ++ b) = (true, None)
   <-> utils.ValidateName a = (true, None) /\ utils.ValidateName b = (true, None)
       /\ (String.length a + String.length b <= 128)%nat).
Proof.
  intros Ha Hb. rewrite !ValidateName_true_inv, string_length_app, allChars_app,
    andb_true_iff.
  split.
  - intros (Hlen & _ & Ca & Cb). repeat split; try assumption; lia.
  - intros ((_ & _ & Ca) & (_ & _ & Cb) & Hlen). repeat split; try assumption.
    destruct a; [now elim Ha | discriminate].
Qed.

(** ** Further facts on [ReplaceNonURIChars] *)

Lemma replaceRuns_length (inrun : bool) (s : string) :
  (String.length (regexp.replaceRuns nonURI "-" inrun s) <= String.length s)%nat.
Proof.
  revert inrun. induction s as [| c s IH]; intros inrun; [simpl; lia | ].
  rewrite replaceRuns_cons. destruct (utils.isURIChar c).
  - simpl. specialize (IH false). lia.
  - destruct inrun; simpl; specialize (IH true); lia.
Qed.

Lemma replaceRuns_false_nonempty (c : ascii) (s : string) :
  regexp.replaceRuns nonURI "-" false (String c s) <> "".
Proof.
  rewrite replaceRuns_cons. destruct (utils.isURIChar c); discriminate.
Qed.

(** X3. For every text, [ReplaceNonURIChars] gives no error and a text of
    characters of [[A-Za-z0-9.-]] only, which is not longer than the text
    given and is empty only when the text given is. *)
Theorem ReplaceNonURIChars_output (s : string) :
  snd (utils.ReplaceNonURIChars s) = None
  /\ IsDNSStyle (fst (utils.ReplaceNonURIChars s))
  /\ (String.length (fst (utils.ReplaceNonURIChars s)) <= String.length s)%nat
  /\ (fst (utils.ReplaceNonURIChars s) = "" <-> s = "").
Proof.
  fold (cleanName s). rewrite cleanName_unfold.
  split; [reflexivity | split; [ | split] ].
  - apply IsDNSStyle_allChars, replaceRuns_URI.
  - apply replaceRuns_length.
  - split.
    + destruct s as [| c s]; [reflexivity | ].
      intros H. now apply replaceRuns_false_nonempty in H.
    + intros ->. reflexivity.
Qed.

(** X4. [ReplaceNonURIChars] leaves a text as it is exactly when the text
    has characters of [[A-Za-z0-9.-]] only. *)
Theorem ReplaceNonURIChars_fixed_iff (s : string) :
  utils.ReplaceNonURIChars s = (s, None) <-> IsDNSStyle s.
Proof.
  rewrite IsDNSStyle_allChars. split.
  - intros H. assert (E : cleanName s = s) by (unfold cleanName; now rewrite H).
    rewrite <- E, cleanName_unfold. apply replaceRuns_URI.
  - intros H. unfold utils.ReplaceNonURIChars, regexp.ReplaceAllString_plus.
    f_equal. now apply (replaceRuns_fixed false).
Qed.

Lemma replaceRuns_runEndsAt (inrun : bool) (s : string) :
  runEndsAt s ->
  regexp.replaceRuns nonURI "-" inrun s = regexp.replaceRuns nonURI "-" false s.
Proof.
  destruct s as [| c s]; [reflexivity | ]. intros H. cbn [runEndsAt] in H.
  apply isURIChar_alphabet in H. now rewrite !replaceRuns_cons, H.
Qed.

Lemma replaceRuns_app (inrun : bool) (a b : string) :
  runEndsAt b ->
  regexp.replaceRuns nonURI "-" inrun (a ++ b)
  = regexp.replaceRuns nonURI "-" inrun a ++ regexp.replaceRuns nonURI "-" false b.
Proof.
  intros Hb. revert inrun. induction a as [| c a IH]; intros inrun.
  - simpl. now apply replaceRuns_runEndsAt.
  - change (String c a ++ b) with (String c (a ++ b)). rewrite !replaceRuns_cons.
    destruct (utils.isURIChar c); [cbn [append]; now rewrite IH | ].
    destruct inrun; [apply IH | cbn [append]; now rewrite IH].
Qed.

(** X5. Sanitizing goes through a concatenation whose second part begins
    with a character of [[A-Za-z0-9.-]]: the parts are sanitized one by
    one. *)
Theorem ReplaceNonURIChars_app (a b : string) (c : ascii) :
  In c handleAlphabet ->
  fst (utils.ReplaceNonURIChars (a ++ String c b))
  = fst (utils.ReplaceNonURIChars a) ++ fst (utils.ReplaceNonURIChars (String c b)).
Proof.
  intros Hc. fold (cleanName (a ++ String c b)) (cleanName a) (cleanName (String c b)).
  rewrite !cleanName_unfold. apply replaceRuns_app. exact Hc.
Qed.

(** ** [FQDNVolumeName] *)

(** X7. [FQDNVolumeName] of a name is the [FQDN] of the name with the type
    [volume]; for every name it has characters of [[A-Za-z0-9.-]] only, and
    with [.volume.shipyard.run] cut off it is the sanitized name. *)
Theorem FQDNVolumeName_handle (name : string) :
  exists handle : string,
    utils.FQDNVolumeName name = Ret handle
    /\ utils.FQDN name "volume" = Ret handle
    /\ IsDNSStyle handle
    /\ strings.TrimSuffix handle ".volume.shipyard.run"
       = fst (utils.ReplaceNonURIChars name).
Proof.
  exists (cleanName name ++ ".volume.shipyard.run").
  split; [reflexivity | split; [reflexivity | split] ].
  - apply IsDNSStyle_allChars. rewrite allChars_app, cleanName_unfold, replaceRuns_URI.
    reflexivity.
  - apply TrimSuffix_app.
Qed.

(** ** [strings.ReplaceAll] and [strings.Split] *)

Lemma ReplaceAll_char (s : string) (c : ascii) (new : string) :
  strings.ReplaceAll s (strings.nonEmpty c "") new = replaceChar c new s.
Proof.
  unfold strings.ReplaceAll, strings.text. cbn [strings.head strings.tail].
  induction s as [| d s IH]; [reflexivity | ].
  cbn [strings.replaceFrom strings.HasPrefix String.length Nat.sub replaceChar].
  rewrite andb_true_r. destruct (Ascii.eqb d c); now rewrite IH.
Qed.

Lemma replaceChar_length (c d : ascii) (s : string) :
  String.length (replaceChar c (String d "") s) = String.length s.
Proof.
  induction s as [| x s IH]; [reflexivity | ]. cbn [replaceChar].
  destruct (Ascii.eqb x c); simpl; now rewrite IH.
Qed.

Lemma replaceChar_absent (c : ascii) (new s : string) :
  regexp.allChars (fun x => negb (Ascii.eqb x c)) s = true ->
  replaceChar c new s = s.
Proof.
  induction s as [| x s IH]; [reflexivity | ].
  cbn [regexp.allChars replaceChar]. rewrite andb_true_iff. intros [Hx Hs].
  apply negb_true_iff in Hx. now rewrite Hx, IH.
Qed.

(** The unfolding of the replacement of ["//"] by ["/"]. *)
Lemma replaceFrom_slashes_cons (c : ascii) (s : string) :
  strings.replaceFrom "//" "/" 0 (String c s)
  = if strings.HasPrefix (String c s) "//" then
      String "/" (strings.replaceFrom "//" "/" 1 s)
    else String c (strings.replaceFrom "//" "/" 0 s).
Proof. reflexivity. Qed.

Lemma replaceFrom_slashes_skip (c : ascii) (s : string) :
  strings.replaceFrom "//" "/" 1 (String c s) = strings.replaceFrom "//" "/" 0 s.
Proof. reflexivity. Qed.

Lemma HasPrefix_slashes (s : string) :
  strings.HasPrefix s "//" = true -> exists s', s = String "/" (String "/" s').
Proof.
  destruct s as [| c [| d s']]; cbn [strings.HasPrefix]; try discriminate.
  - rewrite andb_false_r. discriminate.
  - rewrite andb_true_r, andb_true_iff. intros [Hc Hd].
    apply Ascii.eqb_eq in Hc, Hd. subst. now exists s'.
Qed.

Lemma replaceFrom_slashes_length (skip : nat) (s : string) :
  (String.length (strings.replaceFrom "//" "/" skip s) <= String.length s)%nat.
Proof.
  revert skip. induction s as [| c s IH]; intros skip; [simpl; lia | ].
  destruct skip as [| k].
  - rewrite replaceFrom_slashes_cons.
    destruct (strings.HasPrefix (String c s) "//"); cbn [String.length].
    + specialize (IH 1%nat). lia.
    + specialize (IH 0%nat). lia.
  - cbn [strings.replaceFrom String.length]. specialize (IH k). lia.
Qed.

Lemma replaceFrom_slashes_shorter (s : string) :
  strings.Contains s "//" = true ->
  (String.length (strings.replaceFrom "//" "/" 0 s) < String.length s)%nat.
Proof.
  induction s as [| c s IH]; [discriminate | ].
  cbn [strings.Contains]. rewrite replaceFrom_slashes_cons.
  destruct (strings.HasPrefix (String c s) "//") eqn:E.
  - intros _. apply HasPrefix_slashes in E. destruct E as [s' E].
    injection E as -> ->. rewrite replaceFrom_slashes_skip. cbn [String.length].
    pose proof (replaceFrom_slashes_length 0 s'). lia.
  - cbn [orb String.length]. intros H. specialize (IH H). lia.
Qed.

Lemma replaceFrom_slashes_absent (s : string) :
  strings.Contains s "//" = false ->
  strings.replaceFrom "//" "/" 0 s = s.
Proof.
  induction s as [| c s IH]; [reflexivity | ].
  cbn [strings.Contains]. rewrite replaceFrom_slashes_cons. intros H.
  apply orb_false_iff in H. destruct H as [H1 H2]. now rewrite H1, IH.
Qed.

Lemma sanitizeBlueprintFolder_unfold (s : string) :
  utils.sanitizeBlueprintFolder s
  = replaceChar "=" "/" (replaceChar "&" "/" (replaceChar "?" "/"
      (strings.replaceFrom "//" "/" 0 s))).
Proof.
  unfold utils.sanitizeBlueprintFolder. cbv zeta. now rewrite !ReplaceAll_char.
Qed.

Lemma replaceChar_removes (c : ascii) (s : string) :
  c <> "/"%char ->
  regexp.allChars (fun x => negb (Ascii.eqb x c)) (replaceChar c "/" s) = true.
Proof.
  intros Hc. induction s as [| x s IH]; [reflexivity | ]. cbn [replaceChar].
  destruct (Ascii.eqb x c) eqn:E; cbn [append regexp.allChars].
  - rewrite IH, andb_true_r. apply negb_true_iff, Ascii.eqb_neq. congruence.
  - now rewrite E, IH.
Qed.

Lemma replaceChar_keeps (p : ascii -> bool) (c : ascii) (s : string) :
  p "/"%char = true ->
  regexp.allChars p s = true ->
  regexp.allChars p (replaceChar c "/" s) = true.
Proof.
  intros Hp. induction s as [| x s IH]; [reflexivity | ].
  cbn [regexp.allChars replaceChar]. rewrite andb_true_iff. intros [Hx Hs].
  destruct (Ascii.eqb x c); cbn [append regexp.allChars].
  - now rewrite Hp, IH.
  - now rewrite Hx, IH.
Qed.

Lemma notSpecialb_spec (s : string) :
  AllIn notSpecial s
  <-> regexp.allChars (fun x => negb (Ascii.eqb x "?")) s = true
      /\ regexp.allChars (fun x => negb (Ascii.eqb x "&")) s = true
      /\ regexp.allChars (fun x => negb (Ascii.eqb x "=")) s = true.
Proof.
  unfold AllIn, notSpecial. induction s as [| x s IH]; cbn [list_ascii_of_string regexp.allChars].
  - split; [now repeat split | constructor].
  - rewrite !andb_true_iff, !negb_true_iff, !Ascii.eqb_neq. split.
    + intros H. inversion H as [| ? ? Hx Hs]; subst. apply IH in Hs. tauto.
    + intros H. constructor; [tauto | ]. apply IH. tauto.
Qed.

Lemma sanitizeBlueprintFolder_notSpecial (s : string) :
  AllIn notSpecial (utils.sanitizeBlueprintFolder s).
Proof.
  rewrite sanitizeBlueprintFolder_unfold.
  apply notSpecialb_spec. repeat split.
  - apply replaceChar_keeps; [reflexivity | ].
    apply replaceChar_keeps; [reflexivity | ].
    apply replaceChar_removes. discriminate.
  - apply replaceChar_keeps; [reflexivity | ].
    apply replaceChar_removes. discriminate.
  - apply replaceChar_removes. discriminate.
Qed.

Lemma sanitizeBlueprintFolder_length (s : string) :
  (String.length (utils.sanitizeBlueprintFolder s) <= String.length s)%nat.
Proof.
  rewrite sanitizeBlueprintFolder_unfold, !replaceChar_length.
  apply replaceFrom_slashes_length.
Qed.

(** X8. What [sanitizeBlueprintFolder] gives has no ['?'], ['&'] or ['=']
    and is not longer than the text given. *)
Theorem sanitizeBlueprintFolder_output (s : string) :
  AllIn notSpecial (utils.sanitizeBlueprintFolder s)
  /\ (String.length (utils.sanitizeBlueprintFolder s) <= String.length s)%nat.
Proof.
  split; [apply sanitizeBlueprintFolder_notSpecial | ].
  apply sanitizeBlueprintFolder_length.
Qed.

(** X9. [sanitizeBlueprintFolder] leaves a text as it is exactly when the
    text has no ["//"] and no ['?'], ['&'] or ['=']. *)
Theorem sanitizeBlueprintFolder_fixed_iff (s : string) :
  utils.sanitizeBlueprintFolder s = s
  <-> strings.Contains s "//" = false /\ AllIn notSpecial s.
Proof.
  split.
  - intros E. split.
    + destruct (strings.Contains s "//") eqn:C; [ | reflexivity].
      apply replaceFrom_slashes_shorter in C.
      rewrite <- E in C at 2. rewrite sanitizeBlueprintFolder_unfold in C.
      rewrite !replaceChar_length in C. lia.
    + rewrite <- E. apply sanitizeBlueprintFolder_notSpecial.
  - intros [C H]. apply notSpecialb_spec in H. destruct H as (H1 & H2 & H3).
    rewrite sanitizeBlueprintFolder_unfold, replaceFrom_slashes_absent by exact C.
    now rewrite (replaceChar_absent "?"), (replaceChar_absent "&"),
      (replaceChar_absent "=").
Qed.

(** *** [Split] at ["//"] *)

Lemma splitFrom_slashes_cons (cur : string) (c : ascii) (s : string) :
  strings.splitFrom "//" 0 cur (String c s)
  = if strings.HasPrefix (String c s) "//" then
      cur :: strings.splitFrom "//" 1 "" s
    else strings.splitFrom "//" 0 (cur ++ String c "") s.
Proof. reflexivity. Qed.

Lemma splitFrom_nonempty (sep : string) (skip : nat) (cur s : string) :
  (1 <= List.length (strings.splitFrom sep skip cur s))%nat.
Proof.
  revert skip cur. induction s as [| c s IH]; intros skip cur; [simpl; lia | ].
  cbn [strings.splitFrom]. destruct skip; [ | apply IH].
  destruct (strings.HasPrefix (String c s) sep); [simpl; lia | apply IH].
Qed.

Lemma string_app_cons (cur : string) (c : ascii) (s : string) :
  (cur ++ String c "") ++ s = cur ++ String c s.
Proof. now rewrite string_app_assoc. Qed.

Lemma splitFrom_slashes_absent (cur s : string) :
  strings.Contains s "//" = false ->
  strings.splitFrom "//" 0 cur s = [cur ++ s].
Proof.
  revert cur. induction s as [| c s IH]; intros cur.
  - intros _. simpl. now rewrite string_app_nil_r.
  - cbn [strings.Contains]. intros H. apply orb_false_iff in H.
    destruct H as [H1 H2]. rewrite splitFrom_slashes_cons, H1, IH by exact H2.
    now rewrite string_app_cons.
Qed.

Lemma splitFrom_slashes_present (cur s : string) :
  strings.Contains s "//" = true ->
  (2 <= List.length (strings.splitFrom "//" 0 cur s))%nat.
Proof.
  revert cur. induction s as [| c s IH]; intros cur; [discriminate | ].
  cbn [strings.Contains]. rewrite splitFrom_slashes_cons.
  destruct (strings.HasPrefix (String c s) "//"); cbn [orb].
  - intros _. cbn [List.length].
    pose proof (splitFrom_nonempty "//" 1 "" s). lia.
  - intros H. now apply IH.
Qed.

Lemma HasPrefix_slashes_app (c : ascii) (a b : string) :
  strings.HasPrefix (String c (a ++ "//" ++ b)) "//"
  = strings.HasPrefix (String c (a ++ "/")) "//".
Proof. destruct a; reflexivity. Qed.

(** The first part ends at the first ["//"]. *)
Lemma splitFrom_slashes_first (cur a b : string) :
  strings.Contains (a ++ "/") "//" = false ->
  strings.splitFrom "//" 0 cur (a ++ "//" ++ b)
  = (cur ++ a) :: strings.splitFrom "//" 0 "" b.
Proof.
  revert cur. induction a as [| c a IH]; intros cur.
  - intros _. simpl. now rewrite string_app_nil_r.
  - change (String c a ++ "/") with (String c (a ++ "/")).
    change (String c a ++ "//" ++ b) with (String c (a ++ "//" ++ b)).
    cbn [strings.Contains]. intros H. apply orb_false_iff in H.
    destruct H as [H1 H2].
    rewrite splitFrom_slashes_cons, HasPrefix_slashes_app, H1, IH by exact H2.
    now rewrite string_app_cons.
Qed.

Lemma Join_splitFrom_upto (n : nat) (cur s : string) :
  (String.length s <= n)%nat ->
  strings.Join (strings.splitFrom "//" 0 cur s) "//" = cur ++ s.
Proof.
  revert cur s. induction n as [| n IH]; intros cur s Hlen.
  - destruct s; [simpl; now rewrite string_app_nil_r | simpl in Hlen; lia].
  - destruct s as [| c s]; [simpl; now rewrite string_app_nil_r | ].
    simpl in Hlen. rewrite splitFrom_slashes_cons.
    destruct (strings.HasPrefix (String c s) "//") eqn:E.
    + apply HasPrefix_slashes in E. destruct E as [s' E]. injection E as -> ->.
      cbn [strings.splitFrom]. simpl in Hlen.
      pose proof (splitFrom_nonempty "//" 0 "" s') as Hne.
      pose proof (IH "" s' ltac:(lia)) as Hj.
      destruct (strings.splitFrom "//" 0 "" s') as [| p ps] eqn:Es;
        [simpl in Hne; lia | ].
      cbn [strings.Join]. cbn [strings.Join] in Hj. rewrite Hj. reflexivity.
    + rewrite IH by lia. apply string_app_cons.
Qed.

Lemma Join_Split (s : string) :
  strings.Join (strings.Split s (strings.nonEmpty "/" "/")) "//" = s.
Proof. apply (Join_splitFrom_upto (String.length s)). lia. Qed.


(** *** [GetBlueprintFolder] *)

(** X10. A blueprint without ["//"] (the empty one, a local path) makes
    [GetBlueprintFolder] give [InvalidBlueprintURIError]. *)
Theorem GetBlueprintFolder_no_separator (blueprint : string) :
  strings.Contains blueprint "//" = false ->
  utils.GetBlueprintFolder blueprint = ("", Some utils.InvalidBlueprintURIError).
Proof.
  intros H. unfold utils.GetBlueprintFolder, strings.Split, strings.text.
  cbn [strings.head strings.tail]. cbv zeta.
  now rewrite splitFrom_slashes_absent by exact H.
Qed.

(** X11. A blueprint cut at its first ["//"]: [GetBlueprintFolder] gives
    the sanitized text behind it when that has no further ["//"], and
    [InvalidBlueprintURIError] when it has one. *)
Theorem GetBlueprintFolder_first_separator (a b : string) :
  strings.Contains (a ++ "/") "//" = false ->
  utils.GetBlueprintFolder (a ++ "//" ++ b)
  = if strings.Contains b "//" then ("", Some utils.InvalidBlueprintURIError)
    else (utils.sanitizeBlueprintFolder b, None).
Proof.
  intros H. unfold utils.GetBlueprintFolder, strings.Split, strings.text.
  cbn [strings.head strings.tail]. cbv zeta.
  rewrite splitFrom_slashes_first by exact H.
  destruct (strings.Contains b "//") eqn:C.
  - pose proof (splitFrom_slashes_present "" b C) as Hlen.
    cbn [List.length].
    destruct (S (List.length (strings.splitFrom "//" 0 "" b)) =? 2)%nat eqn:E;
      [apply Nat.eqb_eq in E; lia | reflexivity].
  - now rewrite splitFrom_slashes_absent by exact C.
Qed.

(** X12. When [GetBlueprintFolder] gives a folder, the blueprint is a text,
    ["//"] and a second text, the folder is the second text sanitized, it
    has no ['?'], ['&'] or ['='], and it is shorter than the blueprint by two
    at least. *)
Theorem GetBlueprintFolder_success (blueprint folder : string) :
  utils.GetBlueprintFolder blueprint = (folder, None) ->
  exists a b : string,
    blueprint = a ++ "//" ++ b
    /\ folder = utils.sanitizeBlueprintFolder b
    /\ AllIn notSpecial folder
    /\ (String.length folder + 2 <= String.length blueprint)%nat.
Proof.
  unfold utils.GetBlueprintFolder. cbv zeta.
  pose proof (Join_Split blueprint) as J.
  destruct (strings.Split blueprint (strings.nonEmpty "/" "/")) as [| a [| b [| c l]]];
    cbn [List.length Nat.eqb negb]; try discriminate.
  cbn [nth]. intros E. injection E as <-. exists a, b. cbn [strings.Join] in J.
  repeat split.
  - now rewrite J.
  - apply sanitizeBlueprintFolder_notSpecial.
  - rewrite <- J, !string_length_app.
    pose proof (sanitizeBlueprintFolder_length b). simpl. lia.
Qed.


(** X13. The listing of two resource sets one after the other is the
    listing of the first followed by the listing of the second. *)
Theorem getLoggable_app (rs1 rs2 : list Resource) (l1 l2 : list string) :
  cmd.getLoggable ({| Resources := rs1 |}, None) = Ret (l1, None) ->
  cmd.getLoggable ({| Resources := rs2 |}, None) = Ret (l2, None) ->
  cmd.getLoggable ({| Resources := rs1 ++ rs2 |}, None) = Ret ((l1 ++ l2)%list, None).
Proof.
  rewrite !getLoggable_loaded_inv. intros H1 H2.
  rewrite loggableLoop_app, H1. cbn [bind].
  rewrite loggableLoop_acc, H2. reflexivity.
Qed.

(** X14. With the state file read, [getLoggable] returns a listing (it
    does not panic) exactly when every resource of type [nomad_cluster] that
    is not disabled is a [NomadCluster] value. *)
Theorem getLoggable_returns_iff (resources : list Resource) :
  (exists l, cmd.getLoggable ({| Resources := resources |}, None) = Ret (l, None))
  <-> Forall AssertionHolds resources.
Proof.
  rewrite <- loggableLoop_returns_iff.
  split; intros [l H]; exists l; now apply getLoggable_loaded_inv.
Qed.

(** *** The shape of the handles *)

Lemma loggableStep_shape (r : Resource) (hs : list string) (h : string) :
  cmd.loggableStep [] r = Ret hs -> In h hs ->
  exists prefix, HandlePrefix prefix /\ h = prefix ++ fqdnOf r.
Proof.
  unfold cmd.loggableStep. cbv zeta.
  assert (Hplain : forall hs, Ret [fqdnOf r] = Ret hs -> In h hs ->
            exists prefix, HandlePrefix prefix /\ h = prefix ++ fqdnOf r).
  { intros ? E Hin. injection E as <-. destruct Hin as [<- | []].
    exists "". split; [now left | reflexivity]. }
  assert (Hserver : forall hs, Ret ["server." ++ fqdnOf r] = Ret hs -> In h hs ->
            exists prefix, HandlePrefix prefix /\ h = prefix ++ fqdnOf r).
  { intros ? E Hin. injection E as <-. destruct Hin as [<- | []].
    exists "server.". split; [right; now left | reflexivity]. }
  assert (Hnone : forall hs, Ret (@nil string) = Ret hs -> In h hs ->
            exists prefix, HandlePrefix prefix /\ h = prefix ++ fqdnOf r).
  { intros ? E Hin. injection E as <-. contradiction. }
  switch_cases; destruct (Info_Disabled (Info r)) eqn:Hdis; cbn [negb];
    rewrite ?appendFQDN_Ret, ?appendServer_Ret; cbn [app bind];
    try (apply Hplain); try (apply Hserver); try (apply Hnone).
  destruct r as [nomad | info]; cbn [assertNomadCluster bind]; [ | discriminate].
  rewrite clientLoop_spec. cbn [app]. intros E Hin. injection E as <-.
  destruct Hin as [<- | Hin].
  - exists "server.". split; [right; now left | reflexivity].
  - unfold clientHandles in Hin. apply in_map_iff in Hin.
    destruct Hin as (i & <- & Hi). apply in_seq in Hi.
    exists (cmd.itoa (0 + Z.of_nat i) ++ ".client."). split.
    + right; right. exists (0 + Z.of_nat i)%Z. split; [lia | reflexivity].
    + now rewrite string_app_assoc.
Qed.

Lemma HasSuffix_fqdnOf (prefix : string) (r : Resource) :
  strings.HasSuffix (prefix ++ fqdnOf r) ".shipyard.run" = true.
Proof.
  unfold fqdnOf.
  replace (prefix ++ cleanName (Info_Name (Info r)) ++ "." ++ Info_Type (Info r)
           ++ ".shipyard.run")
    with ((prefix ++ cleanName (Info_Name (Info r)) ++ "." ++ Info_Type (Info r))
          ++ ".shipyard.run").
  - apply HasSuffix_app.
  - rewrite !string_app_assoc. reflexivity.
Qed.

Lemma loggableLoop_shape (resources : list Resource) (l : list string) (h : string) :
  cmd.loggableLoop resources [] = Ret l -> In h l ->
  exists (r : Resource) (prefix : string),
    In r resources /\ HandlePrefix prefix /\ h = prefix ++ fqdnOf r.
Proof.
  intros Hl Hin.
  destruct (loggableLoop_origin resources l h Hl Hin) as (r & hs & Hr & Hs & Hh).
  destruct (loggableStep_shape r hs h Hs Hh) as (prefix & Hp & ->).
  now exists r, prefix.
Qed.

(** X15. Every handle of the listing is the [FQDN] of a resource of the
    set, with nothing, [server.] or [i.client.] for an [i] from 1 before it;
    so it ends in [.shipyard.run]. *)
Theorem getLoggable_handle_shape (resources : list Resource) (l : list string)
        (h : string) :
  cmd.getLoggable ({| Resources := resources |}, None) = Ret (l, None) ->
  In h l ->
  exists (r : Resource) (prefix fqdn : string),
    In r resources
    /\ utils.FQDN (Info_Name (Info r)) (Info_Type (Info r)) = Ret fqdn
    /\ HandlePrefix prefix
    /\ h = prefix ++ fqdn
    /\ strings.HasSuffix h ".shipyard.run" = true.
Proof.
  intros Hl Hin. apply getLoggable_loaded_inv in Hl.
  destruct (loggableLoop_shape resources l h Hl Hin) as (r & prefix & Hr & Hp & ->).
  exists r, prefix, (fqdnOf r).
  split; [exact Hr | split; [apply FQDN_Ret | split; [exact Hp | split] ] ];
    [reflexivity | apply HasSuffix_fqdnOf].
Qed.

(** ** [getRandomColor] *)

(** X17. [getRandomColor] asks [rand.Intn] for a number below the length of
    [termColors] less one: it never panics, it gives one of the first six
    colours, and it never gives [FgWhite], the last of [termColors]. *)
Theorem getRandomColor_never_white (Intn : Z -> Z) :
  (forall n : Z, (0 < n)%Z -> (0 <= Intn n < n)%Z) ->
  exists c : color.Attribute,
    cmd.getRandomColor Intn = Ret c
    /\ In c [color.FgRed; color.FgGreen; color.FgYellow; color.FgBlue;
             color.FgMagenta; color.FgCyan]
    /\ c <> color.FgWhite.
Proof.
  intros H. unfold cmd.getRandomColor. cbv zeta.
  change (Z.of_nat (List.length cmd.termColors) - 1)%Z with 6%Z.
  change (Z.of_nat (List.length cmd.termColors)) with 7%Z.
  specialize (H 6%Z ltac:(lia)).
  assert (Hi : (Intn 6 = 0 \/ Intn 6 = 1 \/ Intn 6 = 2 \/ Intn 6 = 3
                \/ Intn 6 = 4 \/ Intn 6 = 5)%Z) by lia.
  destruct Hi as [E | [E | [E | [E | [E | E]]]]]; rewrite E; cbn;
    eexists; (split; [reflexivity | split; [tauto | discriminate] ]).
Qed.

(** ** [writeLogOutput] *)

Lemma copyInto_length (p data : list ascii) :
  List.length (io.copyInto p data) = List.length p.
Proof.
  unfold io.copyInto. rewrite length_app, length_firstn, length_skipn. lia.
Qed.

Lemma copyInto_full (p data : list ascii) :
  List.length data = List.length p -> io.copyInto p data = data.
Proof.
  intros H. unfold io.copyInto. rewrite <- H, firstn_all, H, skipn_all.
  apply app_nil_r.
Qed.

Lemma lor_shiftl_add (a b k : Z) :
  (0 <= k -> 0 <= a < 2 ^ k -> 0 <= b ->
   Z.lor a (Z.shiftl b k) = a + b * 2 ^ k)%Z.
Proof.
  intros Hk Ha Hb.
  assert (Hland : Z.land a (Z.shiftl b k) = 0%Z).
  { apply Z.bits_inj'. intros n Hn. rewrite Z.land_spec, Z.bits_0.
    destruct (Z.lt_ge_cases n k) as [L | G].
    - rewrite Z.shiftl_spec_low by exact L. apply andb_false_r.
    - assert (Ht : Z.testbit a n = false).
      { destruct (Z.eq_dec a 0) as [-> | Hnz]; [apply Z.bits_0 | ].
        apply Z.bits_above_log2; [lia | ].
        assert (Z.log2 a < k)%Z by (apply Z.log2_lt_pow2; lia). lia. }
      now rewrite Ht. }
  rewrite <- Z.lxor_lor by exact Hland.
  rewrite <- Z.add_nocarry_lxor by exact Hland.
  now rewrite Z.shiftl_mul_pow2.
Qed.

Lemma N_of_ascii_byteOf (z : Z) :
  (0 <= z < 256)%Z -> Z.of_N (N_of_ascii (byteOf z)) = z.
Proof.
  intros H. unfold byteOf. rewrite N_ascii_embedding by lia. lia.
Qed.

Lemma Uint32_be32 (n : Z) (rest : list ascii) :
  (0 <= n < 2 ^ 32)%Z ->
  binary.BigEndian_Uint32 (be32 n ++ rest) = Ret n.
Proof.
  intros Hn. unfold be32, binary.BigEndian_Uint32. cbn [app]. cbv zeta.
  assert (H24 : (0 <= n / 2 ^ 24 < 256)%Z).
  { split; [apply Z.div_pos; lia | apply Z.div_lt_upper_bound; lia]. }
  rewrite !N_of_ascii_byteOf; try (apply Z.mod_pos_bound; lia); try exact H24.
  f_equal.
  pose proof (Z.mod_pos_bound n 256 ltac:(lia)).
  pose proof (Z.mod_pos_bound (n / 2 ^ 8) 256 ltac:(lia)).
  pose proof (Z.mod_pos_bound (n / 2 ^ 16) 256 ltac:(lia)).
  change (2 ^ 8)%Z with 256%Z in *. change (2 ^ 16)%Z with 65536%Z in *.
  change (2 ^ 24)%Z with 16777216%Z in *.
  rewrite (lor_shiftl_add (n mod 256) _ 8)
    by (try change (2 ^ 8)%Z with 256%Z; lia).
  rewrite (lor_shiftl_add _ _ 16)
    by (try change (2 ^ 8)%Z with 256%Z; try change (2 ^ 16)%Z with 65536%Z; lia).
  rewrite (lor_shiftl_add _ _ 24)
    by (try change (2 ^ 8)%Z with 256%Z; try change (2 ^ 16)%Z with 65536%Z;
        try change (2 ^ 24)%Z with 16777216%Z; lia).
  change (2 ^ 8)%Z with 256%Z. change (2 ^ 16)%Z with 65536%Z.
  change (2 ^ 24)%Z with 16777216%Z.
  pose proof (Z.div_mod n 256 ltac:(lia)).
  pose proof (Z.div_mod (n / 256) 256 ltac:(lia)).
  pose proof (Z.div_mod (n / 65536) 256 ltac:(lia)).
  replace (n / 65536)%Z with (n / 256 / 256)%Z in *
    by (rewrite Z.div_div by lia; reflexivity).
  replace (n / 16777216)%Z with (n / 256 / 256 / 256)%Z in *
    by (rewrite !Z.div_div by lia; reflexivity).
  lia.
Qed.

Lemma Uint32_be32_nil (n : Z) :
  (0 <= n < 2 ^ 32)%Z -> binary.BigEndian_Uint32 (be32 n) = Ret n.
Proof. intros H. rewrite <- (app_nil_r (be32 n)). now apply Uint32_be32. Qed.

Lemma Uint32_of_8 (hdr : list ascii) :
  List.length hdr = 8%nat ->
  exists (hdr0 : ascii) (tl : list ascii) (count : Z),
    hdr = hdr0 :: tl /\ binary.BigEndian_Uint32 (skipn 4 hdr) = Ret count.
Proof.
  destruct hdr as [| h0 [| h1 [| h2 [| h3 [| h4 [| h5 [| h6 [| h7 [| ? ?]]]]]]]]];
    try discriminate.
  intros _. eexists _, _, _. split; reflexivity.
Qed.

(** Whatever the reader does: the function does not panic; as long as it
    runs, every round has printed one text, in the colour given and
    beginning with the bracket; and it returns only after a reading of the
    header gave an error, which it logs once, as the last thing it does. *)
Lemma writeLogOutput_loop_trace {S : Type} (Read : io.Reader S) (rounds : nat)
      (rc : S) (hdr : list ascii) (name : string) (c : color.Attribute) :
  List.length hdr = 8%nat ->
  exists (prints : list cmd.Event),
    Forall (isFprintf c) prints
    /\ ((cmd.writeLogOutput_loop Read rounds rc hdr name c = (prints, cmd.Running)
         /\ List.length prints = rounds)
        \/ exists (name' : string) (e : error),
             cmd.writeLogOutput_loop Read rounds rc hdr name c
             = ((prints ++ [cmd.LogError "Unable to read from log stream" name' e])%list,
                cmd.Returned)
             /\ (List.length prints < rounds)%nat).
Proof.
  revert rc hdr name. induction rounds as [| rounds IH]; intros rc hdr name Hlen.
  - exists []. split; [constructor | left]. split; reflexivity.
  - cbn [cmd.writeLogOutput_loop].
    destruct (Read rc (List.length hdr)) as [[data err] rc1].
    destruct err as [e | ].
    + exists []. split; [constructor | right]. exists name, e.
      split; [reflexivity | simpl; lia].
    + cbv zeta. set (hdr' := io.copyInto hdr data).
      assert (Hlen' : List.length hdr' = 8%nat)
        by (unfold hdr'; now rewrite copyInto_length).
      clearbody hdr'.
      destruct (Uint32_of_8 hdr' Hlen') as (hdr0 & tl & count & Ehdr & Ecount).
      rewrite Ecount. subst hdr'.
      destruct (Read rc1 (List.length (repeat zero (Z.to_nat count))))
        as [[data2 err2] rc2].
      destruct (IH rc2 (hdr0 :: tl) (strings.TrimSuffix name ".shipyard.run") Hlen')
        as (prints & Hall & Hcase).
      destruct Hcase as [[E L] | (name' & e & E & L)]; rewrite E;
        eexists (_ :: prints);
        (split;
         [ | first [ left; split; [reflexivity | simpl; lia]
                   | right; exists name', e; split; [reflexivity | simpl; lia] ] ]);
        (constructor; [split; reflexivity | exact Hall]).
Qed.

(** X18. Whatever the reader does, [writeLogOutput] does not panic; while
    it runs, each round of its loop has printed one text, in the colour
    given and beginning with a bracket; and it returns only after a reading
    of the header gave an error, which it logs once, as the last thing it
    does. *)
Theorem writeLogOutput_trace {S : Type} (Read : io.Reader S) (rounds : nat)
        (rc : S) (name : string) (c : color.Attribute) :
  exists (prints : list cmd.Event),
    Forall (isFprintf c) prints
    /\ ((cmd.writeLogOutput Read rounds rc name c = (prints, cmd.Running)
         /\ List.length prints = rounds)
        \/ exists (name' : string) (e : error),
             cmd.writeLogOutput Read rounds rc name c
             = ((prints ++ [cmd.LogError "Unable to read from log stream" name' e])%list,
                cmd.Returned)
             /\ (List.length prints < rounds)%nat).
Proof. apply writeLogOutput_loop_trace. reflexivity. Qed.

Lemma TrimSuffix_absent (s suffix : string) :
  strings.HasSuffix s suffix = false -> strings.TrimSuffix s suffix = s.
Proof. intros H. unfold strings.TrimSuffix. now rewrite H. Qed.

Lemma bytesReader_header (f : Frame) (rest : list ascii) :
  io.bytesReader (encodeFrame f ++ rest)%list 8
  = (stream f :: zero :: zero :: zero :: be32 (Z.of_nat (List.length (payload f))),
     None, (payload f ++ rest)%list).
Proof. unfold encodeFrame. rewrite <- app_assoc. reflexivity. Qed.

Lemma bytesReader_payload (p rest : list ascii) :
  exists err,
    io.bytesReader (p ++ rest)%list (List.length p) = (p, err, rest).
Proof.
  unfold io.bytesReader. destruct (p ++ rest)%list as [| x l] eqn:E.
  - apply app_eq_nil in E. destruct E as [-> ->]. now exists (Some io.EOF).
  - exists None. rewrite <- E.
    rewrite firstn_app, Nat.sub_diag, firstn_all, firstn_O, app_nil_r.
    rewrite skipn_app, Nat.sub_diag, skipn_all. reflexivity.
Qed.

Lemma writeLogOutput_loop_frames (frames : list Frame) (extra : nat)
      (hdr : list ascii) (name : string) (c : color.Attribute) :
  List.length hdr = 8%nat ->
  Forall (fun f => (Z.of_nat (List.length (payload f)) < 2 ^ 32)%Z) frames ->
  strings.HasSuffix (strings.TrimSuffix name ".shipyard.run") ".shipyard.run" = false ->
  cmd.writeLogOutput_loop io.bytesReader (S (List.length frames) + extra)
    (List.concat (map encodeFrame frames)) hdr name c
  = ((map (printOf (strings.TrimSuffix name ".shipyard.run") c) frames
      ++ [cmd.LogError "Unable to read from log stream"
            (match frames with
             | [] => name
             | _ :: _ => strings.TrimSuffix name ".shipyard.run"
             end) io.EOF])%list,
     cmd.Returned).
Proof.
  revert hdr name. induction frames as [| f frames IH]; intros hdr name Hlen Hall Hname.
  - reflexivity.
  - inversion Hall as [| ? ? Hf Hfs]; subst.
    change (S (List.length (f :: frames)) + extra)%nat
      with (S (S (List.length frames) + extra)).
    remember (S (List.length frames) + extra)%nat as rounds eqn:Hrounds.
    cbn [map List.concat cmd.writeLogOutput_loop].
    rewrite Hlen, bytesReader_header.
    rewrite copyInto_full by (now rewrite Hlen).
    cbn [skipn]. rewrite Uint32_be32_nil by lia.
    rewrite repeat_length, Nat2Z.id.
    destruct (bytesReader_payload (payload f) (List.concat (map encodeFrame frames)))
      as [err ->].
    rewrite copyInto_full by (now rewrite repeat_length).
    subst rounds.
    rewrite (IH _ (strings.TrimSuffix name ".shipyard.run"));
      [ | reflexivity | exact Hfs | now rewrite (TrimSuffix_absent _ _ Hname) ].
    rewrite (TrimSuffix_absent _ _ Hname). cbn [app]. unfold printOf at 2, writerOf.
    cbn [stream payload]. do 2 f_equal. do 2 f_equal. now destruct frames.
Qed.

(** X19. Reading, from a reader of bytes held in memory, frames of eight
    bytes of header (the number of the stream, three zeros, the length of
    the payload in four bytes, the highest first) and their payloads,
    [writeLogOutput] prints the payloads in order, each after the name
    without [.shipyard.run] in brackets, on the standard output for the
    stream 1 and on the standard error for every other one; at the end of
    the bytes it logs [EOF] and returns. *)
Theorem writeLogOutput_frames (frames : list Frame) (extra : nat)
        (name : string) (c : color.Attribute) :
  Forall (fun f => (Z.of_nat (List.length (payload f)) < 2 ^ 32)%Z) frames ->
  strings.HasSuffix (strings.TrimSuffix name ".shipyard.run") ".shipyard.run" = false ->
  cmd.writeLogOutput io.bytesReader (S (List.length frames) + extra)
    (List.concat (map encodeFrame frames)) name c
  = ((map (printOf (strings.TrimSuffix name ".shipyard.run") c) frames
      ++ [cmd.LogError "Unable to read from log stream"
            (match frames with
             | [] => name
             | _ :: _ => strings.TrimSuffix name ".shipyard.run"
             end) io.EOF])%list,
     cmd.Returned).
Proof. intros. now apply writeLogOutput_loop_frames. Qed.

(** ** More on the listing and on names *)

(** The resources that the listing looks at: those that are not disabled,
    and the image caches. *)
Lemma loggableLoop_filter (resources : list Resource) (loggable : list string) :
  cmd.loggableLoop resources loggable
  = cmd.loggableLoop
      (filter (fun r => negb (Info_Disabled (Info r))
                        || (Info_Type (Info r) =? TypeImageCache)) resources)
      loggable.
Proof.
  revert loggable. induction resources as [| r rest IH]; intros loggable;
    [reflexivity | ].
  cbn [filter].
  destruct (Info_Disabled (Info r)) eqn:Hdis; cbn [negb orb].
  - destruct (String.eqb_spec (Info_Type (Info r)) TypeImageCache) as [E | E].
    + cbn [cmd.loggableLoop].
      destruct (cmd.loggableStep loggable r); cbn [bind]; [apply IH | reflexivity].
    + cbn [cmd.loggableLoop]. rewrite (loggableStep_disabled loggable r Hdis E).
      cbn [bind]. apply IH.
  - cbn [cmd.loggableLoop].
    destruct (cmd.loggableStep loggable r); cbn [bind]; [apply IH | reflexivity].
Qed.

(** X16. The listing of a resource set is the listing of the set without
    its disabled resources, the image caches apart: a disabled resource of
    any type but [image_cache] adds nothing to the listing and cannot make it
    panic. *)
Theorem getLoggable_skips_disabled (resources : list Resource) :
  cmd.getLoggable ({| Resources := resources |}, None)
  = cmd.getLoggable
      ({| Resources :=
            filter (fun r => negb (Info_Disabled (Info r))
                             || (Info_Type (Info r) =? TypeImageCache)) resources |},
       None).
Proof. rewrite !getLoggable_loaded. now rewrite loggableLoop_filter. Qed.

(** X20. The sanitized form of a name that [ValidateName] accepts is a name
    that [ValidateName] accepts, and it has no ['_'] and no ['.']: it is one
    label of the handle. *)
Theorem ValidateName_cleanName (name : string) :
  utils.ValidateName name = (true, None) ->
  utils.ValidateName (fst (utils.ReplaceNonURIChars name)) = (true, None)
  /\ AllIn (fun c => c <> "_"%char /\ c <> "."%char)
           (fst (utils.ReplaceNonURIChars name)).
Proof.
  intros V. apply ValidateName_true_inv in V. destruct V as (Hlen & Hne & Hall).
  fold (cleanName name).
  assert (HU : regexp.allChars utils.isURIChar (cleanName name) = true)
    by (rewrite cleanName_unfold; apply replaceRuns_URI).
  assert (HD : regexp.allChars notDot (cleanName name) = true)
    by (rewrite cleanName_unfold; now apply replaceRuns_notDot, nameChars_notDot).
  apply allChars_AllIn in HU. apply allChars_AllIn in HD.
  unfold AllIn in HU, HD. rewrite Forall_forall in HU, HD.
  split.
  - apply ValidateName_true_inv. split; [ | split].
    + pose proof (replaceRuns_length false name) as L.
      rewrite <- cleanName_unfold in L. lia.
    + destruct name as [| c name]; [now elim Hne | ].
      rewrite cleanName_unfold. apply replaceRuns_false_nonempty.
    + apply allChars_AllIn. unfold AllIn. apply Forall_forall. intros c Hc.
      apply isURIChar_isNameChar; [now apply HU | ].
      specialize (HD c Hc). unfold notDot in HD.
      now apply negb_true_iff, Ascii.eqb_neq in HD.
  - unfold AllIn. apply Forall_forall. intros c Hc. split.
    + intros ->. specialize (HU _ Hc). discriminate HU.
    + specialize (HD c Hc). unfold notDot in HD.
      now apply negb_true_iff, Ascii.eqb_neq in HD.
Qed.

(** X21. [getResources] always gives the directive
    [ShellCompDirectiveNoFileComp].  When the state file cannot be read its
    one completion is the message of the error; when it can (and the type
    assertions hold) its completions are the listing of [getLoggable], each
    of which ends in [.shipyard.run]. *)
Theorem getResources_completions (c : Config) (err : option error) :
  Forall AssertionHolds (Resources c) ->
  exists completions : list string,
    cmd.getResources (c, err)
    = Ret (completions, cobra.ShellCompDirectiveNoFileComp)
    /\ match err with
       | Some e =>
           completions
           = ["unable to load state file, check you have running resources: " ++ e]
       | None =>
           cmd.getLoggable (c, None) = Ret (completions, None)
           /\ Forall (fun h => strings.HasSuffix h ".shipyard.run" = true) completions
       end.
Proof.
  intros H. destruct c as [resources]. cbn [Resources] in H.
  destruct err as [e | ].
  - eexists. split; reflexivity.
  - apply loggableLoop_returns_iff in H. destruct H as [l Hl].
    assert (Hg : cmd.getLoggable ({| Resources := resources |}, None) = Ret (l, None))
      by now apply getLoggable_loaded_inv.
    exists l. unfold cmd.getResources. rewrite Hg. cbn [bind].
    split; [reflexivity | split; [reflexivity | ] ].
    apply Forall_forall. intros h Hh.
    destruct (loggableLoop_shape resources l h Hl Hh) as (r & prefix & _ & _ & ->).
    apply HasSuffix_fqdnOf.
Qed.

(** ** The further properties at concrete inputs *)

Lemma ValidateName_app_witness :
  utils.ValidateName ("consul" ++ "-http") = (true, None)
  <-> utils.ValidateName "consul" = (true, None)
      /\ utils.ValidateName "-http" = (true, None)
      /\ (String.length "consul" + String.length "-http" <= 128)%nat.
Proof. apply (ValidateName_app "consul" "-http"); discriminate. Defined.

Lemma ReplaceNonURIChars_app_witness :
  fst (utils.ReplaceNonURIChars ("my db  " ++ String "v" "1 !"))
  = fst (utils.ReplaceNonURIChars "my db  ")
    ++ fst (utils.ReplaceNonURIChars (String "v" "1 !")).
Proof.
  apply (ReplaceNonURIChars_app "my db  " "1 !" "v").
  apply isURIChar_alphabet. reflexivity.
Defined.

Lemma GetBlueprintFolder_no_separator_witness :
  utils.GetBlueprintFolder "./blueprints/vault"
  = ("", Some utils.InvalidBlueprintURIError).
Proof. apply (GetBlueprintFolder_no_separator "./blueprints/vault"). reflexivity. Defined.

Lemma GetBlueprintFolder_first_separator_witness :
  utils.GetBlueprintFolder
    ("github.com/shipyard-run/blueprints" ++ "//" ++ "vault-k8s?ref=v1&depth=1")
  = if strings.Contains "vault-k8s?ref=v1&depth=1" "//"
    then ("", Some utils.InvalidBlueprintURIError)
    else (utils.sanitizeBlueprintFolder "vault-k8s?ref=v1&depth=1", None).
Proof.
  apply (GetBlueprintFolder_first_separator
           "github.com/shipyard-run/blueprints" "vault-k8s?ref=v1&depth=1").
  reflexivity.
Defined.

Lemma GetBlueprintFolder_success_witness :
  exists a b : string,
    "github.com/shipyard-run/blueprints//vault-k8s?ref=v1" = a ++ "//" ++ b
    /\ "vault-k8s/ref/v1" = utils.sanitizeBlueprintFolder b
    /\ AllIn notSpecial "vault-k8s/ref/v1"
    /\ (String.length "vault-k8s/ref/v1" + 2
        <= String.length "github.com/shipyard-run/blueprints//vault-k8s?ref=v1")%nat.
Proof.
  apply (GetBlueprintFolder_success
           "github.com/shipyard-run/blueprints//vault-k8s?ref=v1" "vault-k8s/ref/v1").
  reflexivity.
Defined.

Lemma getLoggable_app_witness :
  cmd.getLoggable
    ({| Resources :=
          [IsOther {| Info_Name := "consul"; Info_Type := TypeContainer;
                      Info_Status := Created; Info_Disabled := false |}]
          ++ [IsOther {| Info_Name := "k3s"; Info_Type := TypeK8sCluster;
                         Info_Status := Created; Info_Disabled := false |}] |}, None)
  = Ret ((["consul.container.shipyard.run"]
          ++ ["server.k3s.k8s_cluster.shipyard.run"])%list, None).
Proof.
  apply (getLoggable_app
           [IsOther {| Info_Name := "consul"; Info_Type := TypeContainer;
                       Info_Status := Created; Info_Disabled := false |}]
           [IsOther {| Info_Name := "k3s"; Info_Type := TypeK8sCluster;
                       Info_Status := Created; Info_Disabled := false |}]);
    reflexivity.
Defined.

Lemma getLoggable_handle_shape_witness :
  exists (r : Resource) (prefix fqdn : string),
    In r [IsNomadCluster
            {| NomadCluster_Info :=
                 {| Info_Name := "db"; Info_Type := TypeNomadCluster;
                    Info_Status := Created; Info_Disabled := false |};
               ClientNodes := 2%Z |}]
    /\ utils.FQDN (Info_Name (Info r)) (Info_Type (Info r)) = Ret fqdn
    /\ HandlePrefix prefix
    /\ "2.client.db.nomad_cluster.shipyard.run" = prefix ++ fqdn
    /\ strings.HasSuffix "2.client.db.nomad_cluster.shipyard.run" ".shipyard.run"
       = true.
Proof.
  apply (getLoggable_handle_shape
           [IsNomadCluster
              {| NomadCluster_Info :=
                   {| Info_Name := "db"; Info_Type := TypeNomadCluster;
                      Info_Status := Created; Info_Disabled := false |};
                 ClientNodes := 2%Z |}]
           ["server.db.nomad_cluster.shipyard.run";
            "1.client.db.nomad_cluster.shipyard.run";
            "2.client.db.nomad_cluster.shipyard.run"]);
    [reflexivity | simpl; tauto].
Defined.

Lemma getRandomColor_never_white_witness :
  exists c : color.Attribute,
    cmd.getRandomColor (fun n => (n - 1)%Z) = Ret c
    /\ In c [color.FgRed; color.FgGreen; color.FgYellow; color.FgBlue;
             color.FgMagenta; color.FgCyan]
    /\ c <> color.FgWhite.
Proof.
  apply (getRandomColor_never_white (fun n => (n - 1)%Z)). intros n Hn. lia.
Defined.

Lemma writeLogOutput_frames_witness :
  cmd.writeLogOutput io.bytesReader 3
    (List.concat
       (map encodeFrame
          [{| stream := "001"; payload := list_ascii_of_string "started" |};
           {| stream := "002"; payload := list_ascii_of_string "failed" |}]))
    "consul.container.shipyard.run" color.FgGreen
  = ([cmd.Fprintf cmd.Stdout color.FgGreen "[consul.container]   started";
      cmd.Fprintf cmd.Stderr color.FgGreen "[consul.container]   failed";
      cmd.LogError "Unable to read from log stream" "consul.container" io.EOF],
     cmd.Returned).
Proof.
  apply (writeLogOutput_frames
           [{| stream := "001"; payload := list_ascii_of_string "started" |};
            {| stream := "002"; payload := list_ascii_of_string "failed" |}]
           0 "consul.container.shipyard.run" color.FgGreen).
  - repeat constructor.
  - reflexivity.
Defined.

Lemma ValidateName_cleanName_witness :
  utils.ValidateName (fst (utils.ReplaceNonURIChars "consul__http")) = (true, None)
  /\ AllIn (fun c => c <> "_"%char /\ c <> "."%char)
           (fst (utils.ReplaceNonURIChars "consul__http")).
Proof. apply (ValidateName_cleanName "consul__http"). reflexivity. Defined.

Lemma getResources_completions_witness :
  exists completions : list string,
    cmd.getResources
      ({| Resources :=
            [IsOther {| Info_Name := "consul"; Info_Type := TypeContainer;
                        Info_Status := Created; Info_Disabled := false |}] |},
       Some "open state.json: no such file or directory")
    = Ret (completions, cobra.ShellCompDirectiveNoFileComp)
    /\ completions
       = ["unable to load state file, check you have running resources: "
          ++ "open state.json: no such file or directory"].
Proof.
  apply (getResources_completions
           {| Resources :=
                [IsOther {| Info_Name := "consul"; Info_Type := TypeContainer;
                            Info_Status := Created; Info_Disabled := false |}] |}
           (Some "open state.json: no such file or directory")).
  repeat constructor. intros; discriminate.
Defined.
